(** * Chat core of the backend: entity stores and socket service

    A shallow embedding of

    - [backend/src/models/chat.model.ts]    (module [Chat]),
    - [backend/src/models/message.model.ts] (module [Message]),
    - [backend/src/services/socket.service.ts] (module [SocketService]),

    and the properties of the chat specification that concern them.

    Modelling conventions.

    - JavaScript strings are [string]s whose characters are read as code
      units below 256; [trim] removes the ECMAScript white space and line
      terminators of that range.
    - An [ObjectId] is represented by its hexadecimal rendering, which is
      what [String(id)] yields in the source.  What Mongoose accepts as an
      identifier, how it normalises one and which identifiers the driver
      generates are left abstract in the class [Mongoose].
    - A collection is the list of its documents in insertion order.
    - [async] code runs in the monad [M]: a state and exception monad over
      [St].  Every storage round trip ([storage]) is followed by one slot
      of the schedule [sched], during which the rest of the process (other
      handlers, other requests) may change the world arbitrarily.  Calls
      on the socket.io server act on process-local tables and are not
      followed by a slot. *)

From stdpp Require Import gmap strings list sorting.
From Stdlib Require Import Ascii ZArith Lia.

Local Open Scope string_scope.
Local Open Scope Z_scope.

(** ** JavaScript strings *)

(** White space and line terminators of ECMAScript among the code units
    below 256: TAB, LF, VT, FF, CR, SP and NBSP. *)
Definition isWhiteSpace (c : ascii) : bool :=
  let n := Ascii.nat_of_ascii c in
  ((9 <=? n) && (n <=? 13) || (n =? 32) || (n =? 160))%nat.

Fixpoint trimStart (s : string) : string :=
  match s with
  | EmptyString => EmptyString
  | String c r => if isWhiteSpace c then trimStart r else s
  end.

Fixpoint trimEnd (s : string) : string :=
  match s with
  | EmptyString => EmptyString
  | String c r =>
      match trimEnd r with
      | EmptyString => if isWhiteSpace c then EmptyString else String c EmptyString
      | r' => String c r'
      end
  end.

(** [String.prototype.trim] *)
Definition trim (s : string) : string := trimEnd (trimStart s).

(** ** Identifiers *)

Definition ObjectId := string.

(** The parts of Mongoose and of the MongoDB driver the code relies on. *)
Class Mongoose := {
  (** [mongoose.isValidObjectId(s)] on a string *)
  isValidObjectId : string → bool;
  (** [String(new mongoose.Types.ObjectId(s))] for a string the
      constructor accepts *)
  ObjectId_of : string → ObjectId;
  (** the [n]-th identifier generated for a new document *)
  ObjectId_fresh : nat → ObjectId
}.

(** ** Documents *)

(** The fields of a user that the chat code reads. *)
Record User := {
  user_id : ObjectId;
  user_name : string;
  profilePicture : option string
}.

Record Chat := {
  chat_id : ObjectId;
  chat_name : option string;
  participants : list ObjectId;
  lastMessage : option ObjectId;
  lastMessageAt : option Z;
  chat_createdAt : Z;
  chat_updatedAt : Z
}.

Record Message := {
  msg_id : ObjectId;
  msg_chat : ObjectId;
  msg_sender : ObjectId;
  msg_content : string;
  msg_createdAt : Z;
  msg_updatedAt : Z
}.

(** [chatSchema.virtual("isDirect")] and [chatSchema.virtual("isGroup")] *)
Definition isDirect (c : Chat) : bool := (length (participants c) =? 2)%nat.
Definition isGroup (c : Chat) : bool := (3 <=? length (participants c))%nat.

(** A message after [.populate("sender", "name avatar")]: the user schema
    has no [avatar] path, so the sender is reduced to its id and name, and
    is [None] when the user no longer exists. *)
Record Sender := {
  sender_id : ObjectId;
  sender_name : string
}.

Record PopulatedMessage := {
  pm_id : ObjectId;
  pm_chat : ObjectId;
  pm_sender : option Sender;
  pm_content : string;
  pm_createdAt : Z;
  pm_updatedAt : Z
}.

(** The [lastMessage] of a chat after the nested populate of
    [getForUser]: [content sender createdAt], the sender with
    [name profilePicture]. *)
Record LastSender := {
  ls_id : ObjectId;
  ls_name : string;
  ls_profilePicture : option string
}.

Record LastMessage := {
  lm_id : ObjectId;
  lm_content : string;
  lm_sender : option LastSender;
  lm_createdAt : Z
}.

Record PopulatedChat := {
  pc_chat : Chat;
  pc_lastMessage : option LastMessage
}.

(** ** The world: database, socket.io server, clock *)

(** A connection as the handlers see it: its id and the identity bound at
    the handshake ([AuthSocket.user] is optional in the source). *)
Record AuthSocket := {
  socket_id : string;
  user : option User
}.

Record World := {
  users : list User;
  chats : list Chat;
  messages : list Message;
  (** [io.sockets.sockets] *)
  sockets : gmap string AuthSocket;
  (** the adapter's room table: room name to socket ids *)
  rooms : gmap string (gset string);
  (** [Date.now()] in milliseconds *)
  clock : Z;
  (** number of identifiers generated so far *)
  generated : nat
}.

Definition set_chats (cs : list Chat) (w : World) : World :=
  {| users := users w; chats := cs; messages := messages w;
     sockets := sockets w; rooms := rooms w; clock := clock w;
     generated := generated w |}.

Definition set_messages (ms : list Message) (w : World) : World :=
  {| users := users w; chats := chats w; messages := ms;
     sockets := sockets w; rooms := rooms w; clock := clock w;
     generated := generated w |}.

Definition set_rooms (rs : gmap string (gset string)) (w : World) : World :=
  {| users := users w; chats := chats w; messages := messages w;
     sockets := sockets w; rooms := rs; clock := clock w;
     generated := generated w |}.

Definition set_generated (n : nat) (w : World) : World :=
  {| users := users w; chats := chats w; messages := messages w;
     sockets := sockets w; rooms := rooms w; clock := clock w;
     generated := n |}.

(** ** Events *)

Inductive Event :=
  | error (message : string)
  | joined_room (chatId : string) (chat : PopulatedChat)
  | left_room (chatId : string)
  | new_message (chatId : string) (message : PopulatedMessage)
  | chat_updated (chatId : string) (lastMessage : PopulatedMessage).

Inductive Target :=
  | ToSocket (sid : string)      (* socket.emit *)
  | ToRoom (room : string).      (* io.to(room).emit *)

(** One [emit]: where it was sent, the connections that were subscribed
    to the target at that moment, and the event. *)
Record Emission := {
  target : Target;
  receivers : gset string;
  event : Event
}.

(** ** The monad of handlers *)

Inductive Res (A : Type) : Type :=
  | Ok (a : A)
  | Throw (msg : string).
Arguments Ok {A} a.
Arguments Throw {A} msg.

Record St := {
  world : World;
  (** interference of the rest of the process, slot by slot *)
  sched : nat → World → World;
  (** number of slots elapsed *)
  tick : nat;
  (** everything emitted so far, oldest first *)
  outbox : list Emission
}.

Definition M (A : Type) : Type := St → Res A * St.

#[global] Instance M_ret : MRet M := λ A a s, (Ok a, s).

#[global] Instance M_bind : MBind M := λ A B k m s,
  match m s with
  | (Ok a, s') => k a s'
  | (Throw e, s') => (Throw e, s')
  end.

Definition throw {A} (msg : string) : M A := λ s, (Throw msg, s).

(** [try { m } catch (error) { h error.message }] *)
Definition try_catch {A} (m : M A) (h : string → M A) : M A := λ s,
  match m s with
  | (Ok a, s') => (Ok a, s')
  | (Throw e, s') => h e s'
  end.

(** A synchronous read of process-local state. *)
Definition peek {A} (f : World → A) : M A := λ s, (Ok (f (world s)), s).

(** A synchronous update of process-local state. *)
Definition poke (f : World → World) : M unit := λ s,
  (Ok tt, {| world := f (world s); sched := sched s; tick := tick s;
             outbox := outbox s |}).

(** [await] of one storage operation: the operation runs atomically, and
    before the handler resumes the rest of the process takes a slot. *)
Definition storage {A} (op : World → Res A * World) : M A := λ s,
  let '(r, w) := op (world s) in
  (r, {| world := sched s (tick s) w; sched := sched s; tick := S (tick s);
         outbox := outbox s |}).

(** The schedule of a run in which nothing else happens. *)
Definition quiet (s : St) : Prop := ∀ n w, sched s n w = w.

(** What a run from [s] to [s'] has emitted. *)
Definition emitted (s s' : St) : list Emission :=
  drop (length (outbox s)) (outbox s').

(** A synchronous computation that may throw. *)
Definition liftR {A} (r : Res A) : M A := λ s, (r, s).

(** [new mongoose.Types.ObjectId(s)]: throws on a string that is not an
    identifier. *)
Definition new_ObjectId `{Mongoose} (s : string) : Res ObjectId :=
  if isValidObjectId s then Ok (ObjectId_of s)
  else Throw "input must be a 24 character hex string, 12 byte Uint8Array, or an integer".

(** Mongoose casting a string to an [_id] inside a query. *)
Definition cast_ObjectId `{Mongoose} (s : string) : Res ObjectId :=
  if isValidObjectId s then Ok (ObjectId_of s)
  else Throw "Cast to ObjectId failed".

(** [type Id = mongoose.Types.ObjectId | string] *)
Inductive Id :=
  | IdObject (o : ObjectId)
  | IdString (s : string).

(** ** Chat entity store: [chat.model.ts] *)

Module Chat.
Section statics.
Context `{Mongoose}.

(** *** The Mongoose model of the collection *)

Definition has_id (id : ObjectId) (c : Chat) : bool := bool_decide (chat_id c = id).

Definition findOne (q : Chat → bool) (w : World) : option Chat :=
  List.find q (chats w).

(** [Chat.create({ name, participants })]: the schema trims [name],
    the other paths take their defaults, both timestamps are set to
    now. *)
Definition create (name : option string) (ps : list ObjectId)
    : World → Res Chat * World := λ w,
  let id := ObjectId_fresh (generated w) in
  let w1 := set_generated (S (generated w)) w in
  if existsb (has_id id) (chats w) then (Throw "E11000 duplicate key error", w1)
  else
    let c := {| chat_id := id; chat_name := trim <$> name; participants := ps;
                lastMessage := None; lastMessageAt := None;
                chat_createdAt := clock w; chat_updatedAt := clock w |} in
    (Ok c, set_chats (chats w ++ [c]) w1).

Fixpoint remove_first (id : ObjectId) (cs : list Chat) : list Chat :=
  match cs with
  | [] => []
  | c :: r => if has_id id c then r else c :: remove_first id r
  end.

Fixpoint update_first (id : ObjectId) (f : Chat → Chat) (cs : list Chat) : list Chat :=
  match cs with
  | [] => []
  | c :: r => if has_id id c then f c :: r else c :: update_first id f r
  end.

(** [Chat.deleteOne({ _id })] *)
Definition deleteOne (id : ObjectId) : World → Res unit * World := λ w,
  (Ok tt, set_chats (remove_first id (chats w)) w).

(** [Chat.findById(chatId)] *)
Definition findById (chatId : string) : World → Res (option Chat) * World := λ w,
  match cast_ObjectId chatId with
  | Ok id => (Ok (findOne (has_id id) w), w)
  | Throw e => (Throw e, w)
  end.

(** [chat.save()] of a document whose [participants] and [updatedAt]
    were assigned: the two modified paths are written to the stored
    document, which must still exist. *)
Definition save (doc : Chat) : World → Res unit * World := λ w,
  if existsb (has_id (chat_id doc)) (chats w) then
    (Ok tt,
     set_chats
       (update_first (chat_id doc)
          (λ c, {| chat_id := chat_id c; chat_name := chat_name c;
                   participants := participants doc;
                   lastMessage := lastMessage c; lastMessageAt := lastMessageAt c;
                   chat_createdAt := chat_createdAt c;
                   chat_updatedAt := chat_updatedAt doc |})
          (chats w)) w)
  else (Throw "No document found for query", w).

(** [Chat.findByIdAndUpdate(chatId, { lastMessage, lastMessageAt })];
    with [timestamps: true] the update also sets [updatedAt]. *)
Definition findByIdAndUpdate (chatId : string) (last : ObjectId) (lastAt : Z)
    : World → Res (option Chat) * World := λ w,
  match cast_ObjectId chatId with
  | Ok id =>
      (Ok (findOne (has_id id) w),
       set_chats
         (update_first id
            (λ c, {| chat_id := chat_id c; chat_name := chat_name c;
                     participants := participants c;
                     lastMessage := Some last; lastMessageAt := Some lastAt;
                     chat_createdAt := chat_createdAt c;
                     chat_updatedAt := clock w |})
            (chats w)) w)
  | Throw e => (Throw e, w)
  end.

(** The nested populate of [lastMessage] and of its sender; a query and
    its populate are taken as one round trip. *)
Definition populate (w : World) (c : Chat) : PopulatedChat :=
  {| pc_chat := c;
     pc_lastMessage :=
       mid ← lastMessage c;
       m ← List.find (λ m, bool_decide (msg_id m = mid)) (messages w);
       Some {| lm_id := msg_id m;
               lm_content := msg_content m;
               lm_sender :=
                 (λ u, {| ls_id := user_id u; ls_name := user_name u;
                          ls_profilePicture := profilePicture u |})
                 <$> List.find (λ u, bool_decide (user_id u = msg_sender m)) (users w);
               lm_createdAt := msg_createdAt m |} |}.

(** *** Statics *)

(** [sort({ updatedAt: -1 })]: [c1] may precede [c2]. *)
Definition updated_first (c1 c2 : Chat) : Prop := chat_updatedAt c2 ≤ chat_updatedAt c1.

#[global] Instance updated_first_dec : RelDecision updated_first :=
  λ c1 c2, decide (chat_updatedAt c2 ≤ chat_updatedAt c1).

(** 1) All rooms for a user *)
Definition listForUser (userId : ObjectId) : M (list PopulatedChat) :=
  storage (λ w,
    (Ok (populate w <$>
           merge_sort updated_first
             (List.filter (λ c, bool_decide (userId ∈ participants c)) (chats w))),
     w)).

(** The filter of [getForUser]: the id, and membership when a user id
    was given. *)
Definition for_user (id : ObjectId) (member : option ObjectId) (c : Chat) : bool :=
  has_id id c &&
  match member with
  | Some u => bool_decide (u ∈ participants c)
  | None => true
  end.

(** 2) One room by id; optionally enforce membership *)
Definition getForUser (chatId : string) (userId : option Id) : M (option PopulatedChat) :=
  if negb (isValidObjectId chatId) then throw "Invalid chat ID format"
  else
    id ← liftR (new_ObjectId chatId);
    member ← match userId with
             | None => mret None
             | Some (IdObject o) => mret (Some o)
             | Some (IdString s) =>
                 if bool_decide (s = "") then mret None
                 else o ← liftR (new_ObjectId s); mret (Some o)
             end;
    storage (λ w, (Ok (populate w <$> findOne (for_user id member) w), w)).

(** [Array.from(new Set([String(a), String(b)]))] *)
Definition dedup (a b : ObjectId) : list string :=
  if bool_decide (a = b) then [a] else [a; b].

Fixpoint new_ObjectIds (l : list string) : Res (list ObjectId) :=
  match l with
  | [] => Ok []
  | s :: r =>
      match new_ObjectId s with
      | Ok o =>
          match new_ObjectIds r with
          | Ok os => Ok (o :: os)
          | Throw e => Throw e
          end
      | Throw e => Throw e
      end
  end.

(** [name?.trim() || null] *)
Definition trimmed_name (name : option string) : option string :=
  match name with
  | Some n => if bool_decide (trim n = "") then None else Some (trim n)
  | None => None
  end.

(** 3) Create a 2-person (direct-like) room.  An absent argument is
    [None]. *)
Definition createPair (a b : option ObjectId) (name : option string) : M Chat :=
  match a, b with
  | Some a, Some b =>
      ps ← liftR (new_ObjectIds (dedup a b));
      if (length ps <? 2)%nat then throw "A direct chat requires two distinct participants"
      else storage (create (trimmed_name name) ps)
  | _, _ => throw "Both participant ids are required"
  end.

(** The filter of [findDirectPair]: [$all: [a, b]] and [$size] 2. *)
Definition direct_pair (a b : ObjectId) (c : Chat) : bool :=
  bool_decide (a ∈ participants c) && bool_decide (b ∈ participants c)
  && (length (participants c) =? 2)%nat.

(** 4) Find existing direct chat between two users *)
Definition findDirectPair (a b : option ObjectId) : M (option Chat) :=
  match a, b with
  | Some a, Some b => storage (λ w, (Ok (findOne (direct_pair a b) w), w))
  | _, _ => mret None
  end.

(** 5) Leave a chat; delete if it becomes empty *)
Definition leave (chatId : string) (userId : ObjectId) : M string :=
  chat ← storage (findById chatId);
  match chat with
  | None => mret "noop"
  | Some chat =>
      let before := length (participants chat) in
      let ps := List.filter (λ p, negb (bool_decide (p = userId))) (participants chat) in
      if (length ps =? 0)%nat then
        storage (deleteOne (chat_id chat));; mret "deleted"
      else if negb (length ps =? before)%nat then
        now ← peek clock;
        storage (save {| chat_id := chat_id chat; chat_name := chat_name chat;
                         participants := ps;
                         lastMessage := lastMessage chat;
                         lastMessageAt := lastMessageAt chat;
                         chat_createdAt := chat_createdAt chat;
                         chat_updatedAt := now |});;
        mret "left"
      else mret "noop"
  end.

End statics.
End Chat.

(** ** Message entity store: [message.model.ts] *)

Module Message.
Section statics.
Context `{Mongoose}.

(** *** The Mongoose model of the collection *)

Definition has_id (id : ObjectId) (m : Message) : bool := bool_decide (msg_id m = id).

(** [Message.create({ chat, sender, content })]: the schema trims
    [content], requires it and bounds its length by 2000; both
    timestamps are set to now. *)
Definition create (chat sender : ObjectId) (content : string)
    : World → Res Message * World := λ w,
  let id := ObjectId_fresh (generated w) in
  let w1 := set_generated (S (generated w)) w in
  let c := trim content in
  if bool_decide (c = "") then
    (Throw "Message validation failed: content: Path `content` is required.", w1)
  else if (2000 <? String.length c)%nat then
    (Throw "Message validation failed: content is longer than the maximum allowed length (2000).", w1)
  else if existsb (has_id id) (messages w) then (Throw "E11000 duplicate key error", w1)
  else
    let m := {| msg_id := id; msg_chat := chat; msg_sender := sender;
                msg_content := c;
                msg_createdAt := clock w; msg_updatedAt := clock w |} in
    (Ok m, set_messages (messages w ++ [m]) w1).

(** [.populate("sender", "name avatar")] *)
Definition populate (w : World) (m : Message) : PopulatedMessage :=
  {| pm_id := msg_id m; pm_chat := msg_chat m;
     pm_sender :=
       (λ u, {| sender_id := user_id u; sender_name := user_name u |})
       <$> List.find (λ u, bool_decide (user_id u = msg_sender m)) (users w);
     pm_content := msg_content m;
     pm_createdAt := msg_createdAt m; pm_updatedAt := msg_updatedAt m |}.

(** [sort({ createdAt: -1 })]: [m1] may precede [m2]. *)
Definition newest_first (m1 m2 : Message) : Prop := msg_createdAt m2 ≤ msg_createdAt m1.

#[global] Instance newest_first_dec : RelDecision newest_first :=
  λ m1 m2, decide (msg_createdAt m2 ≤ msg_createdAt m1).

(** The filter of [getMessagesForChat]. *)
Definition in_chat_before (chat : ObjectId) (before : option Z) (m : Message) : bool :=
  bool_decide (msg_chat m = chat) &&
  match before with
  | Some b => msg_createdAt m <? b
  | None => true
  end.

(** *** Statics *)

(** Create a new message *)
Definition createMessage (chatId senderId content : string) : M Message :=
  if bool_decide (trim content = "") then throw "Message content cannot be empty"
  else
    chat ← liftR (new_ObjectId chatId);
    sender ← liftR (new_ObjectId senderId);
    message ← storage (create chat sender (trim content));
    storage (Chat.findByIdAndUpdate chatId (msg_id message) (msg_createdAt message));;
    mret message.

(** Get messages for a chat with pagination; an omitted [limit] is 50. *)
Definition getMessagesForChat (chatId : string) (limit : option Z) (before : option Z)
    : M (list PopulatedMessage) :=
  let limit := default 50 limit in
  if negb (isValidObjectId chatId) then throw "Invalid chatId format"
  else
    chat ← liftR (new_ObjectId chatId);
    storage (λ w,
      (Ok (populate w <$>
             take (Z.to_nat (Z.max 1 (Z.min 200 limit)))
               (merge_sort newest_first
                  (List.filter (in_chat_before chat before) (messages w)))),
       w)).

(** Get a specific message by ID *)
Definition getMessageById (messageId : string) : M (option PopulatedMessage) :=
  storage (λ w,
    match cast_ObjectId messageId with
    | Ok id => (Ok (populate w <$> List.find (has_id id) (messages w)), w)
    | Throw e => (Throw e, w)
    end).

End statics.
End Message.

(** ** Socket service: [socket.service.ts] *)

Record JoinRoomData := {
  jr_chatId : string
}.

Record SendMessageData := {
  sm_chatId : string;
  sm_content : string
}.

Module SocketService.
Section handlers.
Context `{Mongoose}.

(** *** The socket.io server *)

(** The connections subscribed to a room. *)
Definition members (w : World) (room : string) : gset string :=
  default ∅ (rooms w !! room).

Definition emit (t : Target) (to : gset string) (ev : Event) : M unit := λ s,
  (Ok tt, {| world := world s; sched := sched s; tick := tick s;
             outbox := outbox s ++ [{| target := t; receivers := to; event := ev |}] |}).

(** [socket.emit(event, payload)] *)
Definition socket_emit (socket : AuthSocket) (ev : Event) : M unit :=
  emit (ToSocket (socket_id socket)) {[ socket_id socket ]} ev.

(** [io.to(room).emit(event, payload)] *)
Definition io_emit (room : string) (ev : Event) : M unit :=
  to ← peek (λ w, members w room);
  emit (ToRoom room) to ev.

(** The adapter's [addAll(id, { room })] and [del(id, room)]; a room
    left empty is dropped from the table. *)
Definition adapter_add (sid room : string) (w : World) : World :=
  set_rooms (<[room := {[ sid ]} ∪ members w room]> (rooms w)) w.

Definition adapter_del (sid room : string) (w : World) : World :=
  match rooms w !! room with
  | None => w
  | Some sids =>
      let sids' := sids ∖ {[ sid ]} in
      if bool_decide (sids' = ∅) then set_rooms (delete room (rooms w)) w
      else set_rooms (<[room := sids']> (rooms w)) w
  end.

(** [socket.join(room)] *)
Definition socket_join (socket : AuthSocket) (room : string) : M unit :=
  poke (adapter_add (socket_id socket) room).

(** [socket.leave(room)] *)
Definition socket_leave (socket : AuthSocket) (room : string) : M unit :=
  poke (adapter_del (socket_id socket) room).

(** [io.in(room).allSockets()] *)
Definition allSockets (room : string) : M (gset string) :=
  peek (λ w, members w room).

(** [String(socket.user?._id)] *)
Definition String_user_id (socket : AuthSocket) : string :=
  match user socket with
  | Some u => user_id u
  | None => "undefined"
  end.

Fixpoint forEach {A} (l : list A) (body : A → M unit) : M unit :=
  match l with
  | [] => mret tt
  | x :: r => body x;; forEach r body
  end.

(** *** Handlers *)

(** On connection: join the personal room for notifications. *)
Definition handleConnection (socket : AuthSocket) : M unit :=
  match user socket with
  | Some u => socket_join socket ("user:" +:+ user_id u)
  | None => mret tt
  end.

Definition handleJoinRoom (socket : AuthSocket) (data : JoinRoomData) : M unit :=
  try_catch
    (let chatId := jr_chatId data in
     if negb (isValidObjectId chatId) then
       socket_emit socket (error "Invalid chat ID")
     else
       chat ← Chat.getForUser chatId (IdObject <$> (user_id <$> user socket));
       match chat with
       | None => socket_emit socket (error "Chat not found or access denied")
       | Some chat =>
           socket_join socket ("chat:" +:+ chatId);;
           socket_emit socket (joined_room chatId chat)
       end)
    (λ msg, socket_emit socket (error msg)).

Definition handleLeaveRoom (socket : AuthSocket) (data : JoinRoomData) : M unit :=
  try_catch
    (let chatId := jr_chatId data in
     socket_leave socket ("chat:" +:+ chatId);;
     socket_emit socket (left_room chatId))
    (λ msg, socket_emit socket (error msg)).

(** The user ids of the connected sockets among [socketsInRoom]. *)
Definition userIdsInRoom (w : World) (socketsInRoom : gset string) : gset string :=
  list_to_set
    (omap (λ sid, s ← sockets w !! sid; u ← user s; Some (user_id u))
       (elements socketsInRoom)).

Definition handleSendMessage (socket : AuthSocket) (data : SendMessageData) : M unit :=
  try_catch
    (let chatId := sm_chatId data in
     let content := sm_content data in
     if negb (isValidObjectId chatId) then
       socket_emit socket (error "Invalid chat ID")
     else if bool_decide (content = "") || (String.length (trim content) =? 0)%nat then
       socket_emit socket (error "Message content is required")
     else
       let userId := user_id <$> user socket in
       chat ← Chat.getForUser chatId (IdObject <$> userId);
       match chat with
       | None => socket_emit socket (error "Chat not found or access denied")
       | Some chat =>
           message ← Message.createMessage chatId (String_user_id socket) (trim content);
           populatedMessage ← Message.getMessageById (msg_id message);
           match populatedMessage with
           | None => throw "Failed to retrieve created message"
           | Some populatedMessage =>
               io_emit ("chat:" +:+ chatId) (new_message chatId populatedMessage);;
               socketsInRoom ← allSockets ("chat:" +:+ chatId);
               userIdsInRoom ← peek (λ w, userIdsInRoom w socketsInRoom);
               let otherParticipants :=
                 List.filter (λ p, negb (bool_decide (p = String_user_id socket)))
                   (participants (pc_chat chat)) in
               forEach otherParticipants (λ participantId,
                 if negb (bool_decide (participantId ∈ userIdsInRoom)) then
                   io_emit ("user:" +:+ participantId)
                     (chat_updated chatId populatedMessage)
                 else mret tt)
           end
       end)
    (λ msg, socket_emit socket (error msg)).

End handlers.
End SocketService.

(** ** User store: [user.model.ts] *)

Module UserModel.

(** [userModel.findById(_id)]: the query, with any failure of it
    rethrown as "Failed to find user". *)
Definition findById (_id : ObjectId) : M (option User) :=
  try_catch
    (storage (λ w, (Ok (List.find (λ u, bool_decide (user_id u = _id)) (users w)), w)))
    (λ _, throw "Failed to find user").

End UserModel.

(** ** Connection authentication: [setupMiddleware] of [socket.service.ts] *)

(** What the middleware reads of [socket.handshake]: [auth.token] when it
    is a string, and the [authorization] header. *)
Record Handshake := {
  auth_token : option string;
  authorization : option string
}.

(** The two subject claims of a verified token. *)
Record Decoded := {
  decoded_id : option string;
  decoded_userId : option string
}.

(** [jwt.verify(token, secret)]: the claims, or the error it throws. *)
Class JsonWebToken := {
  jwt_verify : string → string → Res Decoded
}.

Module Authenticator.
Section middleware.
Context `{Mongoose} `{JsonWebToken}.

(** [s.split(" ")] *)
Fixpoint split_space (s : string) : list string :=
  match s with
  | EmptyString => [EmptyString]
  | String c r =>
      if bool_decide (c = " "%char) then EmptyString :: split_space r
      else
        match split_space r with
        | h :: t => String c h :: t
        | [] => [String c EmptyString]
        end
  end.

(** [!s] for an optional string: absent or empty. *)
Definition falsy (s : option string) : bool :=
  match s with
  | Some (String _ _) => false
  | _ => true
  end.

Definition headerToken (h : Handshake) : option string :=
  a ← authorization h; split_space a !! 1%nat.

(** [typeof rawAuth === "string" ? rawAuth : headerToken] *)
Definition token_of (h : Handshake) : option string :=
  match auth_token h with
  | Some t => Some t
  | None => headerToken h
  end.

(** [decoded.id ?? decoded.userId] *)
Definition subject_of (d : Decoded) : option string :=
  match decoded_id d with
  | Some i => Some i
  | None => decoded_userId d
  end.

(** The middleware, for the socket [sid] and [process.env.JWT_SECRET];
    [Throw msg] is [next(new Error(msg))], [Ok socket] is [next()] with
    [socket.user] bound. *)
Definition authenticate (JWT_SECRET : option string) (sid : string) (h : Handshake)
    : M AuthSocket :=
  try_catch
    (let token := token_of h in
     if falsy token then throw "Authentication token required"
     else
       let secret := JWT_SECRET in
       if falsy secret then throw "JWT secret not configured"
       else
         decoded ← liftR (jwt_verify (default "" token) (default "" secret));
         let userId := subject_of decoded in
         if falsy userId then throw "Invalid token format"
         else
           _id ← liftR (new_ObjectId (default "" userId));
           user ← UserModel.findById _id;
           match user with
           | None => throw "User not found"
           | Some user => mret {| socket_id := sid; user := Some user |}
           end)
    (λ msg, throw msg).

(** A connection: the middleware, then the connection handler. *)
Definition connect (JWT_SECRET : option string) (sid : string) (h : Handshake)
    : M AuthSocket :=
  socket ← authenticate JWT_SECRET sid h;
  SocketService.handleConnection socket;;
  mret socket.

End middleware.
End Authenticator.

(** ** Chat REST controller: [ChatController] *)

(** [new Date(s)] on a string: its time, or [None] for an invalid date. *)
Class DateParser := {
  Date_parse : string → option Z
}.

(** What the controller reads of a request. *)
Record AuthedRequest := {
  req_user : option User;
  params_chatId : string;
  body_peerId : option string;
  body_name : option string;
  body_content : option string;
  query_limit : option string;
  query_before : option string
}.

Inductive Body :=
  | ErrorJson (error : string)
  | RoomsJson (rooms : list PopulatedChat)
  | PopulatedChatJson (chat : PopulatedChat)
  | ChatJson (chat : Chat)
  | MessagesJson (messages : list PopulatedMessage) (chatId : string) (limit : Z)
      (count : nat) (hasMore : bool)
  | MessageJson (message : option PopulatedMessage).

Record Response := {
  status : nat;
  body : Body
}.

Module ChatController.
Section controller.
Context `{Mongoose} `{DateParser}.

(** The value of a digit in the given radix. *)
Definition digit_value (radix : Z) (c : ascii) : option Z :=
  let n := Z.of_nat (Ascii.nat_of_ascii c) in
  let v := if (48 <=? n) && (n <=? 57) then n - 48
           else if (97 <=? n) && (n <=? 122) then n - 87
           else if (65 <=? n) && (n <=? 90) then n - 55
           else radix in
  if v <? radix then Some v else None.

(** The value of the longest prefix of digits; [None] when it is empty. *)
Fixpoint digits_prefix (radix : Z) (s : string) (acc : option Z) : option Z :=
  match s with
  | EmptyString => acc
  | String c r =>
      match digit_value radix c with
      | Some v => digits_prefix radix r (Some (default 0 acc * radix + v))
      | None => acc
      end
  end.

(** [parseInt(s)] without a radix; [None] is [NaN]. *)
Definition parseInt (s : string) : option Z :=
  let s := trimStart s in
  let '(negative, s) :=
    match s with
    | String "-" r => (true, r)
    | String "+" r => (false, r)
    | _ => (false, s)
    end in
  let '(radix, s) :=
    match s with
    | String "0" (String "x" r) => (16, r)
    | String "0" (String "X" r) => (16, r)
    | _ => (10, s)
    end in
  (λ n, if negative then - n else n) <$> digits_prefix radix s None.

(** [parseInt(req.query.limit as string) || 20], an absent parameter
    being [undefined]. *)
Definition requested_limit (limit : option string) : Z :=
  match limit ≫= parseInt with
  | Some n => if n =? 0 then 20 else n
  | None => 20
  end.

Definition json (st : nat) (b : Body) : M Response :=
  mret {| status := st; body := b |}.

(** [isValidId] *)
Definition isValidId (v : string) : bool := isValidObjectId v.

(** GET /rooms *)
Definition listChats (req : AuthedRequest) : M Response :=
  try_catch
    (match req_user req with
     | None => json 401 (ErrorJson "Unauthorized")
     | Some user =>
         rooms ← Chat.listForUser (user_id user);
         json 200 (RoomsJson rooms)
     end)
    (λ msg, json 500 (ErrorJson msg)).

(** GET /:chatId *)
Definition getChat (req : AuthedRequest) : M Response :=
  try_catch
    (match req_user req with
     | None => json 401 (ErrorJson "Unauthorized")
     | Some user =>
         let chatId := params_chatId req in
         if negb (isValidId chatId) then json 400 (ErrorJson "Invalid chatId")
         else
           chat ← Chat.getForUser chatId (Some (IdObject (user_id user)));
           match chat with
           | None => json 404 (ErrorJson "Chat not found")
           | Some chat => json 200 (PopulatedChatJson chat)
           end
     end)
    (λ msg, json 500 (ErrorJson msg)).

(** POST /newChat *)
Definition createChat (req : AuthedRequest) : M Response :=
  try_catch
    (match req_user req with
     | None => json 401 (ErrorJson "Unauthorized")
     | Some user =>
         let peerId := body_peerId req in
         let name := body_name req in
         if Authenticator.falsy peerId || negb (isValidObjectId (default "" peerId)) then
           json 400 (ErrorJson "peerId is required and must be a valid ObjectId")
         else if bool_decide (default "" peerId = user_id user) then
           json 400 (ErrorJson "Cannot create a direct chat with yourself")
         else
           peer ← liftR (new_ObjectId (default "" peerId));
           existing ← Chat.findDirectPair (Some (user_id user)) (Some peer);
           match existing with
           | Some existing => json 200 (ChatJson existing)
           | None =>
               peer ← liftR (new_ObjectId (default "" peerId));
               chat ← Chat.createPair (Some (user_id user)) (Some peer) name;
               json 201 (ChatJson chat)
           end
     end)
    (λ msg, json 500 (ErrorJson msg)).

(** GET /:chatId/messages?limit=20&before=<timestamp> *)
Definition getMessages (req : AuthedRequest) : M Response :=
  try_catch
    (match req_user req with
     | None => json 401 (ErrorJson "Unauthorized")
     | Some user =>
         let chatId := params_chatId req in
         if negb (isValidId chatId) then json 400 (ErrorJson "Invalid chatId")
         else
           chat ← Chat.getForUser chatId (Some (IdObject (user_id user)));
           match chat with
           | None => json 404 (ErrorJson "Chat not found or access denied")
           | Some _ =>
               let limit := requested_limit (query_limit req) in
               let before := query_before req in
               let validLimit := Z.max 1 (Z.min 200 limit) in
               let fetch (beforeDate : option Z) : M Response :=
                 messages ← Message.getMessagesForChat chatId (Some validLimit) beforeDate;
                 json 200
                   (MessagesJson messages chatId validLimit (length messages)
                      (Z.of_nat (length messages) =? validLimit)) in
               if Authenticator.falsy before then fetch None
               else
                 match Date_parse (default "" before) with
                 | None => json 400 (ErrorJson "Invalid 'before' timestamp format")
                 | Some t => fetch (Some t)
                 end
           end
     end)
    (λ msg, json 500 (ErrorJson msg)).

(** POST /:chatId/messages *)
Definition sendMessage (req : AuthedRequest) : M Response :=
  try_catch
    (match req_user req with
     | None => json 401 (ErrorJson "Unauthorized")
     | Some user =>
         let chatId := params_chatId req in
         let content := body_content req in
         if negb (isValidId chatId) then json 400 (ErrorJson "Invalid chatId")
         else if Authenticator.falsy content || bool_decide (trim (default "" content) = "") then
           json 400 (ErrorJson "Message content is required")
         else
           chat ← Chat.getForUser chatId (Some (IdObject (user_id user)));
           match chat with
           | None => json 404 (ErrorJson "Chat not found or access denied")
           | Some _ =>
               message ← Message.createMessage chatId (user_id user)
                           (trim (default "" content));
               populatedMessage ← Message.getMessageById (msg_id message);
               json 201 (MessageJson populatedMessage)
           end
     end)
    (λ msg, json 500 (ErrorJson msg)).

End controller.
End ChatController.

(** ** A concrete reading of Mongoose, for the examples

    Identifiers are the strings of 24 hexadecimal digits, normalised to
    lower case; the driver hands out [0...0], [0...1], [0...2] and so on. *)

Module Hex.

Definition isHexDigit (c : ascii) : bool :=
  let n := Ascii.nat_of_ascii c in
  ((48 <=? n) && (n <=? 57) || (65 <=? n) && (n <=? 70) || (97 <=? n) && (n <=? 102))%nat.

Definition toLower (c : ascii) : ascii :=
  let n := Ascii.nat_of_ascii c in
  if ((65 <=? n) && (n <=? 90))%nat then Ascii.ascii_of_nat (n + 32) else c.

Fixpoint allHex (s : string) : bool :=
  match s with
  | EmptyString => true
  | String c r => isHexDigit c && allHex r
  end.

Fixpoint lower (s : string) : string :=
  match s with
  | EmptyString => EmptyString
  | String c r => String (toLower c) (lower r)
  end.

Fixpoint zeros (n : nat) : string :=
  match n with
  | O => EmptyString
  | S n => String "0" (zeros n)
  end.

Definition digit (n : nat) : ascii := Ascii.ascii_of_nat (48 + n mod 10).

(** the decimal digits of [n], which are hexadecimal digits as well *)
Fixpoint digits (fuel n : nat) (acc : string) : string :=
  match fuel with
  | O => acc
  | S fuel =>
      let acc := String (digit n) acc in
      if (n <? 10)%nat then acc else digits fuel (n / 10) acc
  end.

Definition fresh (n : nat) : string :=
  let d := digits 24 n EmptyString in
  zeros (24 - String.length d) +:+ d.

#[export] Instance mongoose : Mongoose := {|
  isValidObjectId s := (String.length s =? 24)%nat && allHex s;
  ObjectId_of := lower;
  ObjectId_fresh := fresh
|}.

End Hex.

(** ** Scenarios

    Two users, Ann and Bob, share the chat [chatC]; Cid is a third user.
    Ann and Cid are connected, each subscribed to the personal room only,
    and nobody is subscribed to the room of the chat. *)

Module Scenario.
Import Hex.

Definition U1 : User :=
  {| user_id := "aaaaaaaaaaaaaaaaaaaaaaa1"; user_name := "Ann"; profilePicture := None |}.
Definition U2 : User :=
  {| user_id := "aaaaaaaaaaaaaaaaaaaaaaa2"; user_name := "Bob"; profilePicture := None |}.
Definition U3 : User :=
  {| user_id := "aaaaaaaaaaaaaaaaaaaaaaa3"; user_name := "Cid"; profilePicture := None |}.

Definition idC : string := "cccccccccccccccccccccccc".

Definition chatC : Chat :=
  {| chat_id := idC; chat_name := None;
     participants := [user_id U1; user_id U2];
     lastMessage := None; lastMessageAt := None;
     chat_createdAt := 5; chat_updatedAt := 5 |}.

Definition socket1 : AuthSocket := {| socket_id := "s1"; user := Some U1 |}.
Definition socket3 : AuthSocket := {| socket_id := "s3"; user := Some U3 |}.

Definition w0 : World :=
  {| users := [U1; U2; U3];
     chats := [chatC];
     messages := [];
     sockets := {[ "s1" := socket1; "s3" := socket3 ]};
     rooms := {[ "user:aaaaaaaaaaaaaaaaaaaaaaa1" := {[ "s1" ]};
                 "user:aaaaaaaaaaaaaaaaaaaaaaa3" := {[ "s3" ]} ]};
     clock := 100;
     generated := 0 |}.

(** Nothing else happens. *)
Definition s0 : St :=
  {| world := w0; sched := λ _ w, w; tick := 0; outbox := [] |}.

(** The message collection is emptied in the slot that follows the
    update of the chat, the third storage round trip of a send. *)
Definition s0_purged : St :=
  {| world := w0;
     sched := λ n w, if (n =? 2)%nat then set_messages [] w else w;
     tick := 0; outbox := [] |}.

(** An empty store. *)
Definition s_empty : St :=
  {| world := {| users := [U1; U2]; chats := []; messages := [];
                 sockets := ∅; rooms := ∅; clock := 100; generated := 0 |};
     sched := λ _ w, w; tick := 0; outbox := [] |}.

(** Ann and Bob have both connected. *)
Definition socket2 : AuthSocket := {| socket_id := "s2"; user := Some U2 |}.

Definition s_online : St :=
  let w := {| users := [U1; U2; U3]; chats := [chatC]; messages := [];
              sockets := {[ "s1" := socket1; "s2" := socket2 ]};
              rooms := ∅; clock := 100; generated := 0 |} in
  let s := {| world := w; sched := λ _ w, w; tick := 0; outbox := [] |} in
  snd (SocketService.handleConnection socket2
         (snd (SocketService.handleConnection socket1 s))).

(** [chatC] with 250 messages, the [i]-th created at time [i]. *)
Definition nth_message (i : nat) : Message :=
  {| msg_id := fresh (1000 + i); msg_chat := idC; msg_sender := user_id U1;
     msg_content := "m";
     msg_createdAt := Z.of_nat i; msg_updatedAt := Z.of_nat i |}.

Definition s_long : St :=
  {| world := {| users := [U1; U2]; chats := [chatC];
                 messages := nth_message <$> seq 0 250;
                 sockets := ∅; rooms := ∅; clock := 1000; generated := 0 |};
     sched := λ _ w, w; tick := 0; outbox := [] |}.

Definition hello : SendMessageData := {| sm_chatId := idC; sm_content := " hello " |}.

(** What the send of [hello] by Ann stores and re-fetches. *)
Definition message1 : Message :=
  {| msg_id := "000000000000000000000000"; msg_chat := idC;
     msg_sender := user_id U1; msg_content := "hello";
     msg_createdAt := 100; msg_updatedAt := 100 |}.

Definition populated1 : PopulatedMessage :=
  {| pm_id := "000000000000000000000000"; pm_chat := idC;
     pm_sender := Some {| sender_id := user_id U1; sender_name := "Ann" |};
     pm_content := "hello"; pm_createdAt := 100; pm_updatedAt := 100 |}.

Definition found1 : PopulatedChat := {| pc_chat := chatC; pc_lastMessage := None |}.

(** The states between the storage calls of that send, from [s]. *)
Definition after_lookup (s : St) : St :=
  snd (Chat.getForUser idC (Some (IdObject (user_id U1))) s).
Definition after_write (s : St) : St :=
  snd (Message.createMessage idC (user_id U1) "hello" (after_lookup s)).
Definition after_refetch (s : St) : St :=
  snd (Message.getMessageById (msg_id message1) (after_write s)).

End Scenario.

(** ** More scenarios

    A token service that knows two tokens under the secret "s3cret", one
    naming Ann by [id] and one naming Bob by the older [userId]; dates
    written as a number of milliseconds; and the requests and handshakes
    of the examples. *)

Module Fixtures.
Import Hex Scenario.

#[export] Instance jwt : JsonWebToken := {|
  jwt_verify token secret :=
    if bool_decide (secret = "s3cret") then
      if bool_decide (token = "token-of-ann") then
        Ok {| decoded_id := Some (user_id U1); decoded_userId := None |}
      else if bool_decide (token = "token-of-bob") then
        Ok {| decoded_id := None; decoded_userId := Some (user_id U2) |}
      else Throw "jwt malformed"
    else Throw "invalid signature"
|}.

#[export] Instance dates : DateParser := {|
  Date_parse s :=
    if bool_decide (s = "") then None
    else if forallb (λ c, bool_decide (is_Some (ChatController.digit_value 10 c)))
              (String.list_ascii_of_string s)
    then ChatController.digits_prefix 10 s None
    else None
|}.

Definition bearer_of_ann : Handshake :=
  {| auth_token := None; authorization := Some "Bearer token-of-ann" |}.

Definition legacy_of_bob : Handshake :=
  {| auth_token := Some "token-of-bob"; authorization := None |}.

(** A text of 2001 characters. *)
Definition too_long : string := zeros 2001.

Definition request (who : User) : AuthedRequest :=
  {| req_user := Some who; params_chatId := idC;
     body_peerId := None; body_name := None; body_content := None;
     query_limit := None; query_before := None |}.

(** Ann asks for a direct chat with Bob. *)
Definition ann_wants_bob : AuthedRequest :=
  {| req_user := Some U1; params_chatId := "";
     body_peerId := Some (user_id U2); body_name := Some " Ann and Bob ";
     body_content := None; query_limit := None; query_before := None |}.

(** Ann asks for up to 1000 messages of [chatC]. *)
Definition ann_reads_1000 : AuthedRequest :=
  {| req_user := Some U1; params_chatId := idC;
     body_peerId := None; body_name := None; body_content := None;
     query_limit := Some "1000"; query_before := None |}.

(** What Ann's message looks like in the store of [s_long]. *)
Definition message_long : Message :=
  {| msg_id := "000000000000000000000000"; msg_chat := idC;
     msg_sender := user_id U1; msg_content := "hello";
     msg_createdAt := 1000; msg_updatedAt := 1000 |}.

(** The chat Ann and Bob get in an empty store. *)
Definition first_chat : Chat :=
  {| chat_id := "000000000000000000000000"; chat_name := None;
     participants := [user_id U1; user_id U2];
     lastMessage := None; lastMessageAt := None;
     chat_createdAt := 100; chat_updatedAt := 100 |}.

(** Two pages of [chatC] in [s_long]. *)
Definition page_of (r : Res (list PopulatedMessage)) : list PopulatedMessage :=
  match r with
  | Ok page => page
  | Throw _ => []
  end.

Definition first_page : list PopulatedMessage :=
  page_of (fst (Message.getMessagesForChat idC (Some 3) None s_long)).

Definition oldest_of_first_page : PopulatedMessage :=
  {| pm_id := fresh 1247; pm_chat := idC;
     pm_sender := Some {| sender_id := user_id U1; sender_name := "Ann" |};
     pm_content := "m"; pm_createdAt := 247; pm_updatedAt := 247 |}.

Definition second_page : list PopulatedMessage :=
  page_of (fst (Message.getMessagesForChat idC (Some 2) (Some 247)
                  (snd (Message.getMessagesForChat idC (Some 3) None s_long)))).

(** The chat Ann asks for, with its trimmed name. *)
Definition named_chat : Chat :=
  {| chat_id := "000000000000000000000000"; chat_name := Some "Ann and Bob";
     participants := [user_id U1; user_id U2];
     lastMessage := None; lastMessageAt := None;
     chat_createdAt := 100; chat_updatedAt := 100 |}.

(** The response of a run that returned one. *)
Definition answer_of (r : Res Response) : Response :=
  match r with
  | Ok resp => resp
  | Throw e => {| status := 500; body := ErrorJson e |}
  end.

Definition long_answer : Response :=
  answer_of (fst (ChatController.getMessages ann_reads_1000 s_long)).

End Fixtures.

(** ** Notions used in the statements *)

Section notions.
Context `{Mongoose}.

(** The presence snapshot of a chat's room as [handleSendMessage]
    computes it: the user ids of the connected sockets subscribed to
    the room. *)
Definition presenceOf (w : World) (chatId : string) : gset string :=
  SocketService.userIdsInRoom w (SocketService.members w ("chat:" +:+ chatId)).

(** The [error] event a handler sends to its own connection. *)
Definition error_to (socket : AuthSocket) (msg : string) : Emission :=
  {| target := ToSocket (socket_id socket);
     receivers := {[ socket_id socket ]};
     event := error msg |}.

(** The [left_room] confirmation. *)
Definition left_room_to (socket : AuthSocket) (chatId : string) : Emission :=
  {| target := ToSocket (socket_id socket);
     receivers := {[ socket_id socket ]};
     event := left_room chatId |}.

(** An event sent to a room, as delivered in world [w]. *)
Definition to_room (w : World) (room : string) (ev : Event) : Emission :=
  {| target := ToRoom room;
     receivers := SocketService.members w room;
     event := ev |}.

(** The [chat_updated] notifications of one send, in the order of the
    chat's participant list: one for every participant that is not the
    sender and not in the presence snapshot. *)
Definition notifications (w : World) (socket : AuthSocket) (chatId : string)
    (chat : PopulatedChat) (pm : PopulatedMessage) (present : gset string)
    : list Emission :=
  (λ p, to_room w ("user:" +:+ p) (chat_updated chatId pm)) <$>
  List.filter (λ p, negb (bool_decide (p ∈ present)))
    (List.filter (λ p, negb (bool_decide (p = SocketService.String_user_id socket)))
       (participants (pc_chat chat))).

(** The state [s] after one more emission. *)
Definition with_emission (s : St) (e : Emission) : St :=
  {| world := world s; sched := sched s; tick := tick s;
     outbox := outbox s ++ [e] |}.

(** The state in which a handler resumes after a storage round trip that
    left the world as [w]: the rest of the process has taken its slot. *)
Definition resumed (s : St) (w : World) : St :=
  {| world := sched s (tick s) w; sched := sched s; tick := S (tick s);
     outbox := outbox s |}.

(** A computation that emits nothing. *)
Definition silent {A} (m : M A) : Prop :=
  ∀ s r s', m s = (r, s') → outbox s' = outbox s.

(** Invariants of the chat collection: ids are unique, and a stored
    chat has at least one participant and no participant twice. *)
Definition chat_ok (c : Chat) : Prop :=
  NoDup (participants c) ∧ participants c ≠ [].

Definition store_ok (w : World) : Prop :=
  NoDup (chat_id <$> chats w) ∧ Forall chat_ok (chats w).

(** Every chat id of [w] is a chat id of [w']. *)
Definition ids_kept (w w' : World) : Prop :=
  ∀ c, c ∈ chats w → ∃ c', c' ∈ chats w' ∧ chat_id c' = chat_id c.

Definition keeps_ids {A} (m : M A) : Prop :=
  ∀ s r s', quiet s → m s = (r, s') → sched s' = sched s ∧ ids_kept (world s) (world s').

(** A computation that, run without interference, removes no chat: every
    chat id stored before is stored after. *)
Definition keeps_chats {A} (m : M A) : Prop :=
  ∀ s r s', quiet s → m s = (r, s') → ids_kept (world s) (world s').

(** The stored chats of exactly the two users [a] and [b]. *)
Definition direct_chats (a b : ObjectId) (w : World) : list Chat :=
  List.filter (Chat.direct_pair a b) (chats w).

(** A string without a space. *)
Fixpoint no_space (s : string) : bool :=
  match s with
  | EmptyString => true
  | String c r => negb (bool_decide (c = " "%char)) && no_space r
  end.

(** The chat stored under [chatId], if any. *)
Definition chat_of (w : World) (chatId : string) : option Chat :=
  Chat.findOne (Chat.has_id (ObjectId_of chatId)) w.

End notions.

(** ** Monad bookkeeping *)

Lemma trimmed_empty (t : string) : (String.length t =? 0)%nat = bool_decide (t = "").
Proof. destruct t; reflexivity. Qed.

Lemma emitted_with_emission s e : emitted s (with_emission s e) = [e].
Proof. unfold emitted, with_emission; simpl. by rewrite drop_app_length. Qed.

(** ** Validation of [send_message] *)

Section send_validation.
Context `{Mongoose}.

(** C2. A [send_message] whose chat id is malformed, or whose content
    trims to the empty string, ends with exactly one [error] event to
    the sending connection: the world is as before (no message is
    persisted), no storage round trip took place and nothing else is
    emitted. *)
Theorem sendMessage_rejects_invalid_input socket data s :
  isValidObjectId (sm_chatId data) = false ∨ trim (sm_content data) = "" →
  SocketService.handleSendMessage socket data s =
    (Ok tt,
     with_emission s
       (error_to socket
          (if isValidObjectId (sm_chatId data) then "Message content is required"
           else "Invalid chat ID"))).
Proof.
  intros Hbad. unfold SocketService.handleSendMessage.
  destruct (isValidObjectId (sm_chatId data)) eqn:Hvalid; simpl.
  - destruct Hbad as [? | Hblank]; [done |].
    rewrite Hblank; simpl. rewrite orb_true_r. reflexivity.
  - reflexivity.
Qed.

End send_validation.

(** ** Leaving a room *)

Section leave_room.
Context `{Mongoose}.

Lemma set_rooms_same w : set_rooms (rooms w) w = w.
Proof. by destruct w. Qed.

Lemma members_adapter_del sid room w r :
  SocketService.members (SocketService.adapter_del sid room w) r =
    if bool_decide (r = room) then SocketService.members w r ∖ {[ sid ]}
    else SocketService.members w r.
Proof.
  unfold SocketService.adapter_del, SocketService.members.
  destruct (rooms w !! room) as [sids|] eqn:Hroom.
  - case_bool_decide as Hempty; simpl; case_bool_decide as Hr; subst.
    + rewrite lookup_delete_eq, Hroom; simpl. by rewrite Hempty.
    + by rewrite lookup_delete_ne.
    + by rewrite lookup_insert_eq, Hroom.
    + by rewrite lookup_insert_ne.
  - case_bool_decide; subst; [| done].
    rewrite Hroom; simpl. by rewrite empty_difference_L.
Qed.

Lemma adapter_del_twice sid room w :
  SocketService.adapter_del sid room (SocketService.adapter_del sid room w) =
    SocketService.adapter_del sid room w.
Proof.
  unfold SocketService.adapter_del at 2 3.
  destruct (rooms w !! room) as [sids|] eqn:Hroom.
  - case_bool_decide as Hempty.
    + unfold SocketService.adapter_del; simpl. by rewrite lookup_delete_eq.
    + unfold SocketService.adapter_del; simpl. rewrite lookup_insert_eq.
      rewrite difference_twice_L.
      rewrite bool_decide_eq_false_2 by done.
      unfold set_rooms; simpl. by rewrite insert_insert_eq.
  - unfold SocketService.adapter_del. by rewrite Hroom.
Qed.

Lemma handleLeaveRoom_run socket data s :
  SocketService.handleLeaveRoom socket data s =
    (Ok tt,
     with_emission
       {| world := SocketService.adapter_del (socket_id socket)
                     ("chat:" +:+ jr_chatId data) (world s);
          sched := sched s; tick := tick s; outbox := outbox s |}
       (left_room_to socket (jr_chatId data))).
Proof. reflexivity. Qed.

(** C9. [leave_room] is idempotent.  From any state, subscribed or not,
    the handler answers with the [left_room] confirmation and no error,
    after which the connection is not in the room; a second [leave_room]
    answers with the same confirmation and leaves the world as it is. *)
Theorem leaveRoom_idempotent socket data s :
  let run1 := SocketService.handleLeaveRoom socket data s in
  let run2 := SocketService.handleLeaveRoom socket data (snd run1) in
  fst run1 = Ok tt ∧
  emitted s (snd run1) = [left_room_to socket (jr_chatId data)] ∧
  (socket_id socket ∉
    SocketService.members (world (snd run1)) ("chat:" +:+ jr_chatId data)) ∧
  fst run2 = Ok tt ∧
  emitted (snd run1) (snd run2) = [left_room_to socket (jr_chatId data)] ∧
  world (snd run2) = world (snd run1).
Proof.
  cbv zeta. rewrite !handleLeaveRoom_run; simpl.
  repeat split.
  - unfold emitted; simpl. by rewrite drop_app_length.
  - rewrite members_adapter_del, bool_decide_eq_true_2 by done.
    apply not_elem_of_difference. right. by apply elem_of_singleton.
  - unfold emitted; simpl. by rewrite drop_app_length.
  - apply adapter_del_twice.
Qed.

(** C10. [leave_room] validates nothing and checks no membership: for
    every string [chatId], well-formed or not, naming a chat or not, the
    handler makes no storage round trip, touches nothing but the room
    table, and sends the connection exactly the [left_room] confirmation
    that echoes [chatId]. *)
Theorem leaveRoom_never_validates socket (chatId : string) s :
  ∃ s',
    SocketService.handleLeaveRoom socket {| jr_chatId := chatId |} s = (Ok tt, s') ∧
    emitted s s' = [left_room_to socket chatId] ∧
    tick s' = tick s ∧
    chats (world s') = chats (world s) ∧
    messages (world s') = messages (world s) ∧
    ∀ room, room ≠ "chat:" +:+ chatId →
      SocketService.members (world s') room = SocketService.members (world s) room.
Proof.
  eexists. split; [apply handleLeaveRoom_run |]. simpl.
  split; [unfold emitted; simpl; by rewrite drop_app_length |].
  split; [done |].
  split; [by unfold SocketService.adapter_del; repeat case_match |].
  split; [by unfold SocketService.adapter_del; repeat case_match |].
  intros room Hne. rewrite members_adapter_del.
  by rewrite bool_decide_eq_false_2.
Qed.

End leave_room.

(** ** Storage calls emit nothing *)

Section silence.
Context `{Mongoose}.

Lemma storage_run {A} (op : World → Res A * World) s :
  storage op s = (fst (op (world s)), resumed s (snd (op (world s)))).
Proof. unfold storage, resumed. by destruct (op (world s)). Qed.

Lemma silent_storage {A} (op : World → Res A * World) : silent (storage op).
Proof. intros s r s'. rewrite storage_run. by intros [= _ <-]. Qed.

Lemma silent_ret {A} (a : A) : silent (mret a).
Proof. by intros s r s' [= _ <-]. Qed.

Lemma silent_throw {A} msg : silent (@throw A msg).
Proof. by intros s r s' [= _ <-]. Qed.

Lemma silent_liftR {A} (r : Res A) : silent (liftR r).
Proof. by intros s r' s' [= _ <-]. Qed.

Lemma silent_peek {A} (f : World → A) : silent (peek f).
Proof. by intros s r' s' [= _ <-]. Qed.

Lemma silent_bind {A B} (m : M A) (k : A → M B) :
  silent m → (∀ a, silent (k a)) → silent (m ≫= k).
Proof.
  intros Hm Hk s r s'. unfold mbind, M_bind.
  destruct (m s) as [[a | e] s1] eqn:Hrun.
  - intros Hk'. rewrite (Hk _ _ _ _ Hk'). eauto.
  - intros [= _ <-]. eauto.
Qed.

Create HintDb silent.
#[local] Hint Resolve silent_storage silent_ret silent_throw silent_liftR silent_peek
  silent_bind : silent.

Lemma silent_getForUser chatId userId : silent (Chat.getForUser chatId userId).
Proof.
  unfold Chat.getForUser. destruct (negb _); [auto with silent |].
  apply silent_bind; [auto with silent |]. intros id.
  apply silent_bind; [| auto with silent].
  destruct userId as [[o | u] |]; [auto with silent | | auto with silent].
  destruct (bool_decide _); auto with silent.
Qed.

Lemma silent_createMessage chatId senderId content :
  silent (Message.createMessage chatId senderId content).
Proof.
  unfold Message.createMessage. destruct (bool_decide _); auto 10 with silent.
Qed.

Lemma silent_getMessageById messageId : silent (Message.getMessageById messageId).
Proof. unfold Message.getMessageById. auto with silent. Qed.

End silence.

(** ** Joining a room *)

Section join_room.
Context `{Mongoose}.

Lemma getForUser_run chatId (uid : option ObjectId) s :
  isValidObjectId chatId = true →
  Chat.getForUser chatId (IdObject <$> uid) s =
    (Ok (Chat.populate (world s) <$>
           Chat.findOne (Chat.for_user (ObjectId_of chatId) uid) (world s)),
     resumed s (world s)).
Proof.
  intros Hvalid. unfold Chat.getForUser, new_ObjectId. rewrite Hvalid; simpl.
  unfold mbind, M_bind, liftR. destruct uid; simpl; by rewrite storage_run.
Qed.

(** What [getForUser] did when it returned a chat, for every form of the
    user id: an [ObjectId], a string, the empty string or none. *)
Lemma getForUser_inv chatId (userId : option Id) s pc s' :
  Chat.getForUser chatId userId s = (Ok (Some pc), s') →
  isValidObjectId chatId = true ∧
  ∃ member c,
    Chat.findOne (Chat.for_user (ObjectId_of chatId) member) (world s) = Some c ∧
    pc = Chat.populate (world s) c ∧
    match userId with
    | None => member = None
    | Some (IdObject o) => member = Some o
    | Some (IdString u) =>
        (u = "" ∧ member = None) ∨
        (u ≠ "" ∧ isValidObjectId u = true ∧ member = Some (ObjectId_of u))
    end.
Proof.
  intros Hrun. destruct (isValidObjectId chatId) eqn:Hvalid.
  2: { unfold Chat.getForUser in Hrun. by rewrite Hvalid in Hrun. }
  split; [done |].
  unfold Chat.getForUser, new_ObjectId in Hrun. rewrite Hvalid in Hrun.
  simpl in Hrun. unfold mbind, M_bind, liftR in Hrun.
  assert (∀ member,
            storage (λ w, (Ok (Chat.populate w <$>
                                 Chat.findOne (Chat.for_user (ObjectId_of chatId) member) w),
                           w)) s = (Ok (Some pc), s') →
            ∃ c, Chat.findOne (Chat.for_user (ObjectId_of chatId) member) (world s) = Some c ∧
                 pc = Chat.populate (world s) c) as Hread.
  { intros member. rewrite storage_run. intros [= Hfound _].
    destruct (Chat.findOne _ _) as [c |]; [| done].
    injection Hfound as <-. by exists c. }
  destruct userId as [[o | u] |]; simpl in Hrun.
  - apply Hread in Hrun as (c & Hfind & Hpc). by exists (Some o), c.
  - case_bool_decide as Hempty; simpl in Hrun.
    + apply Hread in Hrun as (c & Hfind & Hpc). exists None, c.
      split; [done |]. split; [done |]. by left.
    + destruct (isValidObjectId u) eqn:Hu; simpl in Hrun; [| done].
      apply Hread in Hrun as (c & Hfind & Hpc). exists (Some (ObjectId_of u)), c.
      split; [done |]. split; [done |]. by right.
  - apply Hread in Hrun as (c & Hfind & Hpc). by exists None, c.
Qed.

Lemma find_none_iff {A} (f : A → bool) (l : list A) :
  List.find f l = None ↔ ∀ x, x ∈ l → f x = false.
Proof.
  split.
  - intros Hnone x Hx. apply (find_none f l Hnone). by apply list_elem_of_In.
  - intros Hall. destruct (List.find f l) as [x|] eqn:Hfind; [| done].
    apply find_some in Hfind as [Hin Hfx].
    apply list_elem_of_In, Hall in Hin. congruence.
Qed.

(** C5. A [join_room] with a well-formed chat id, by a connection whose
    bound identity is a participant of no stored chat with that id (the
    chat does not exist, or the identity is not among its participants),
    sends the connection the single error "Chat not found or access
    denied", the same in both cases, and does nothing else: the state it
    ends in is the one in which it resumed after the lookup, so the
    handler itself subscribes the connection to nothing. *)
Theorem joinRoom_denied socket chatId u s :
  isValidObjectId chatId = true →
  user socket = Some u →
  (∀ c, c ∈ chats (world s) → chat_id c = ObjectId_of chatId →
        user_id u ∉ participants c) →
  SocketService.handleJoinRoom socket {| jr_chatId := chatId |} s =
    (Ok tt,
     with_emission (resumed s (world s))
       (error_to socket "Chat not found or access denied")).
Proof.
  intros Hvalid Hu Hdenied.
  unfold SocketService.handleJoinRoom; simpl. rewrite Hvalid; simpl.
  unfold try_catch, mbind, M_bind. rewrite getForUser_run by done.
  replace (Chat.findOne _ _) with (@None Chat); [done |].
  symmetry. apply find_none_iff. intros c Hc.
  unfold Chat.for_user, Chat.has_id. rewrite Hu; simpl.
  case_bool_decide as Hid; [| done]. simpl.
  apply bool_decide_eq_false_2. by apply Hdenied.
Qed.

(** X16. A [join_room] from a participant is granted: for a well-formed
    chat id under which a chat is stored that lists the identity of the
    connection, the handler subscribes the connection to the room of the
    chat and answers with one [joined_room] event, to that connection
    only, carrying the chat in populated form. *)
Lemma joinRoom_granted socket chatId u c s :
  isValidObjectId chatId = true →
  user socket = Some u →
  Chat.findOne (Chat.for_user (ObjectId_of chatId) (Some (user_id u))) (world s) = Some c →
  ∃ s',
    SocketService.handleJoinRoom socket {| jr_chatId := chatId |} s = (Ok tt, s') ∧
    socket_id socket ∈ SocketService.members (world s') ("chat:" +:+ chatId) ∧
    emitted s s' =
      [{| target := ToSocket (socket_id socket); receivers := {[ socket_id socket ]};
          event := joined_room chatId (Chat.populate (world s) c) |}].
Proof.
  intros Hvalid Hu Hfind.
  unfold SocketService.handleJoinRoom; simpl. rewrite Hvalid; simpl.
  unfold try_catch, mbind, M_bind. rewrite getForUser_run by done.
  rewrite Hu; simpl. rewrite Hfind; simpl.
  eexists. split; [reflexivity |]. simpl. split.
  - unfold SocketService.members, SocketService.adapter_add; simpl.
    rewrite lookup_insert_eq; simpl. apply elem_of_union. left. by apply elem_of_singleton.
  - unfold emitted; simpl. by rewrite drop_app_length.
Qed.

(** On connection a socket is subscribed to the personal channel of its
    identity. *)
Lemma handleConnection_subscribes socket u s :
  user socket = Some u →
  ∃ s',
    SocketService.handleConnection socket s = (Ok tt, s') ∧
    socket_id socket ∈ SocketService.members (world s') ("user:" +:+ user_id u).
Proof.
  intros Hu. unfold SocketService.handleConnection. rewrite Hu.
  eexists. split; [reflexivity |]. simpl.
  unfold SocketService.members, SocketService.adapter_add; simpl.
  rewrite lookup_insert_eq; simpl. apply elem_of_union. left. by apply elem_of_singleton.
Qed.

End join_room.

(** ** Ingestion and fan-out *)

Section send_message.
Context `{Mongoose}.

Lemma io_emit_run room ev s :
  SocketService.io_emit room ev s = (Ok tt, with_emission s (to_room (world s) room ev)).
Proof. reflexivity. Qed.

Lemma forEach_notify (l : list ObjectId) chatId pm (present : gset string) s :
  SocketService.forEach l
    (λ participantId,
       if negb (bool_decide (participantId ∈ present)) then
         SocketService.io_emit ("user:" +:+ participantId) (chat_updated chatId pm)
       else mret tt) s =
  (Ok tt,
   {| world := world s; sched := sched s; tick := tick s;
      outbox := outbox s ++
        ((λ p, to_room (world s) ("user:" +:+ p) (chat_updated chatId pm)) <$>
         List.filter (λ p, negb (bool_decide (p ∈ present))) l) |}).
Proof.
  revert s. induction l as [| p l IH]; intros s; simpl.
  - rewrite app_nil_r. by destruct s.
  - unfold mbind, M_bind at 1.
    destruct (negb (bool_decide (p ∈ present))); simpl.
    + rewrite IH; simpl. by rewrite <- app_assoc.
    + by rewrite IH.
Qed.

(** One step of a handler: a call whose run is known. *)
Ltac step Hrun := unfold mbind at 1, M_bind at 1; rewrite Hrun.

(** The run of a send that gets as far as the re-fetch. *)
Lemma handleSendMessage_run socket chatId content s chat s1 message s2 fetched s3 :
  isValidObjectId chatId = true →
  trim content ≠ "" →
  Chat.getForUser chatId (IdObject <$> (user_id <$> user socket)) s = (Ok (Some chat), s1) →
  Message.createMessage chatId (SocketService.String_user_id socket) (trim content) s1
    = (Ok message, s2) →
  Message.getMessageById (msg_id message) s2 = (Ok fetched, s3) →
  SocketService.handleSendMessage socket
      {| sm_chatId := chatId; sm_content := content |} s =
    (Ok tt,
     match fetched with
     | Some pm =>
         {| world := world s3; sched := sched s3; tick := tick s3;
            outbox := outbox s ++
              to_room (world s3) ("chat:" +:+ chatId) (new_message chatId pm) ::
              notifications (world s3) socket chatId chat pm
                (presenceOf (world s3) chatId) |}
     | None =>
         {| world := world s3; sched := sched s3; tick := tick s3;
            outbox := outbox s ++
              [error_to socket "Failed to retrieve created message"] |}
     end).
Proof.
  intros Hvalid Hcontent Hlookup Hcreate Hfetch.
  assert (outbox s3 = outbox s) as Hout.
  { rewrite (silent_getMessageById _ _ _ _ Hfetch).
    rewrite (silent_createMessage _ _ _ _ _ _ Hcreate).
    apply (silent_getForUser _ _ _ _ _ Hlookup). }
  unfold SocketService.handleSendMessage; simpl. rewrite Hvalid; simpl.
  assert (content ≠ "") as Hne by (intros ->; by apply Hcontent).
  rewrite bool_decide_eq_false_2, trimmed_empty, bool_decide_eq_false_2 by done; simpl.
  unfold try_catch. step Hlookup. step Hcreate. step Hfetch.
  destruct fetched as [pm |].
  - step io_emit_run.
    unfold mbind at 1, M_bind at 1, SocketService.allSockets, peek at 1.
    unfold mbind at 1, M_bind at 1, peek at 1.
    rewrite forEach_notify; simpl.
    rewrite Hout, <- app_assoc. reflexivity.
  - unfold throw, SocketService.socket_emit, SocketService.emit, error_to; simpl.
    by rewrite Hout.
Qed.

(** C1, as amended.  In a send whose lookup, write and re-fetch succeed,
    the room of the chat gets [new_message], and every participant of the
    chat other than the sender whose id is not in the presence snapshot of
    that room gets a [chat_updated] event, carrying the chat id and the
    re-fetched message, on its personal channel. *)
Theorem sendMessage_notifies_absent_others
    socket chatId content s chat s1 message s2 pm s3 :
  isValidObjectId chatId = true →
  trim content ≠ "" →
  Chat.getForUser chatId (IdObject <$> (user_id <$> user socket)) s = (Ok (Some chat), s1) →
  Message.createMessage chatId (SocketService.String_user_id socket) (trim content) s1
    = (Ok message, s2) →
  Message.getMessageById (msg_id message) s2 = (Ok (Some pm), s3) →
  ∃ s',
    SocketService.handleSendMessage socket
      {| sm_chatId := chatId; sm_content := content |} s = (Ok tt, s') ∧
    to_room (world s') ("chat:" +:+ chatId) (new_message chatId pm) ∈ emitted s s' ∧
    ∀ p,
      p ∈ participants (pc_chat chat) →
      p ≠ SocketService.String_user_id socket →
      p ∉ presenceOf (world s') chatId →
      to_room (world s') ("user:" +:+ p) (chat_updated chatId pm) ∈ emitted s s'.
Proof.
  intros Hvalid Hcontent Hlookup Hcreate Hfetch.
  eexists. split; [by eapply handleSendMessage_run |]. simpl.
  unfold emitted; simpl. rewrite drop_app_length.
  split; [apply list_elem_of_here |].
  intros p Hp Hother Habsent. apply list_elem_of_further.
  unfold notifications. apply list_elem_of_fmap.
  exists p. split; [done |].
  apply list_elem_of_In, filter_In. split.
  - apply filter_In. split; [by apply list_elem_of_In |].
    by rewrite bool_decide_eq_false_2.
  - by rewrite bool_decide_eq_false_2.
Qed.

(** C4. When the re-fetch after a successful write finds nothing, the
    send ends with the single error "Failed to retrieve created message"
    to the sending connection: no [new_message], no [chat_updated], and
    the handler returns normally in the state in which it resumed after
    the re-fetch, the connection and its subscriptions untouched. *)
Theorem sendMessage_refetch_failure socket chatId content s chat s1 message s2 s3 :
  isValidObjectId chatId = true →
  trim content ≠ "" →
  Chat.getForUser chatId (IdObject <$> (user_id <$> user socket)) s = (Ok (Some chat), s1) →
  Message.createMessage chatId (SocketService.String_user_id socket) (trim content) s1
    = (Ok message, s2) →
  Message.getMessageById (msg_id message) s2 = (Ok None, s3) →
  ∃ s',
    SocketService.handleSendMessage socket
      {| sm_chatId := chatId; sm_content := content |} s = (Ok tt, s') ∧
    emitted s s' = [error_to socket "Failed to retrieve created message"] ∧
    world s' = world s3.
Proof.
  intros Hvalid Hcontent Hlookup Hcreate Hfetch.
  eexists. split; [by eapply handleSendMessage_run |]. simpl.
  unfold emitted; simpl. by rewrite drop_app_length.
Qed.

End send_message.

(** ** Message entity store *)

Section message_store.
Context `{Mongoose}.

#[local] Instance newest_first_total : Total Message.newest_first.
Proof. intros m1 m2. unfold Message.newest_first. lia. Qed.

#[local] Instance newest_first_trans : Transitive Message.newest_first.
Proof. intros m1 m2 m3. unfold Message.newest_first. lia. Qed.



Lemma find_update_first id (f : Chat → Chat) cs :
  (∀ c, chat_id (f c) = chat_id c) →
  List.find (Chat.has_id id) (Chat.update_first id f cs) =
    f <$> List.find (Chat.has_id id) cs.
Proof.
  intros Hf. induction cs as [| c cs IH]; [done |]. simpl.
  destruct (Chat.has_id id c) eqn:Hc; simpl.
  - unfold Chat.has_id in *. by rewrite Hf, Hc.
  - by rewrite Hc.
Qed.

(** C8. When [createMessage] returns a message [m], the message belongs
    to the chat named by [chatId], and in the world [w] in which the
    update of the chat completes, before anything else gets to run, the
    chat stored under that id points to [m]: its [lastMessage] is [m]'s id
    and its [lastMessageAt] is [m]'s creation timestamp.  In a run without
    interference [w] is the world the call ends in, [m] is stored in it,
    and the chat is there if it was there before the call. *)
Theorem createMessage_advances_pointer chatId senderId content s m s' :
  Message.createMessage chatId senderId content s = (Ok m, s') →
  ∃ w,
    world s' = sched s (S (tick s)) w ∧
    msg_chat m = ObjectId_of chatId ∧
    (∀ c, chat_of w chatId = Some c →
       lastMessage c = Some (msg_id m) ∧ lastMessageAt c = Some (msg_createdAt m)) ∧
    (quiet s →
       world s' = w ∧ m ∈ messages w ∧
       (is_Some (chat_of (world s) chatId) → is_Some (chat_of w chatId))).
Proof.
  unfold Message.createMessage.
  destruct (bool_decide (trim content = "")); [done |].
  unfold new_ObjectId, mbind, M_bind, liftR.
  destruct (isValidObjectId chatId) eqn:Hchat; [| done].
  destruct (isValidObjectId senderId); [| done].
  rewrite storage_run.
  destruct (Message.create _ _ _ (world s)) as [[m0 | e] w1] eqn:Hcreate; simpl; [| done].
  rewrite storage_run; simpl.
  unfold Chat.findByIdAndUpdate, cast_ObjectId. rewrite Hchat; simpl.
  unfold mret, M_ret. intros [= -> <-]; simpl.
  eexists. split; [reflexivity |].
  unfold Message.create in Hcreate. repeat case_match; try done.
  injection Hcreate as <- <-. simpl.
  split; [done |].
  unfold chat_of, Chat.findOne; simpl. rewrite find_update_first by done.
  split.
  - intros c Hc. destruct (List.find _ _); [| done]. by injection Hc as <-.
  - intros Hquiet. rewrite !Hquiet; simpl.
    split; [done |]. split; [apply elem_of_app; right; apply list_elem_of_here |].
    intros [c ->]. by eexists.
Qed.

End message_store.

(** ** Chat entity store *)

Section chat_store.
Context `{Mongoose}.

Lemma find_has_id id cs c :
  List.find (Chat.has_id id) cs = Some c → c ∈ cs ∧ chat_id c = id.
Proof.
  intros Hfind. apply find_some in Hfind as [Hin Hid].
  split; [by apply list_elem_of_In |]. by apply bool_decide_eq_true_1 in Hid.
Qed.

Lemma existsb_has_id id cs c :
  List.find (Chat.has_id id) cs = Some c → existsb (Chat.has_id id) cs = true.
Proof.
  intros Hfind. apply find_some in Hfind as [Hin Hid].
  apply existsb_exists. eauto.
Qed.

Lemma find_remove_first_eq id cs :
  NoDup (chat_id <$> cs) → List.find (Chat.has_id id) (Chat.remove_first id cs) = None.
Proof.
  induction cs as [| c cs IH]; [done |]. simpl. intros Hnodup.
  apply NoDup_cons in Hnodup as [Hfresh Hnodup].
  destruct (Chat.has_id id c) eqn:Hc; simpl.
  - apply bool_decide_eq_true_1 in Hc. subst id.
    apply find_none_iff. intros c' Hc'. apply bool_decide_eq_false_2.
    intros Heq. apply Hfresh. rewrite <- Heq. by apply list_elem_of_fmap_2.
  - rewrite Hc. by apply IH.
Qed.

Lemma find_remove_first_ne id id' cs :
  id' ≠ id →
  List.find (Chat.has_id id') (Chat.remove_first id cs) = List.find (Chat.has_id id') cs.
Proof.
  intros Hne. induction cs as [| c cs IH]; [done |]. simpl.
  destruct (Chat.has_id id c) eqn:Hc; simpl.
  - apply bool_decide_eq_true_1 in Hc.
    unfold Chat.has_id at 2. by rewrite bool_decide_eq_false_2 by congruence.
  - by rewrite IH.
Qed.

Lemma find_update_first_ne id id' (f : Chat → Chat) cs :
  id' ≠ id → (∀ c, chat_id (f c) = chat_id c) →
  List.find (Chat.has_id id') (Chat.update_first id f cs) = List.find (Chat.has_id id') cs.
Proof.
  intros Hne Hf. induction cs as [| c cs IH]; [done |]. simpl.
  destruct (Chat.has_id id c) eqn:Hc; simpl.
  - apply bool_decide_eq_true_1 in Hc. unfold Chat.has_id.
    rewrite Hf. by rewrite !bool_decide_eq_false_2 by congruence.
  - by rewrite IH.
Qed.

Lemma filter_out_absent (p : ObjectId) (l : list ObjectId) :
  p ∉ l → List.filter (λ q, negb (bool_decide (q = p))) l = l.
Proof.
  induction l as [| q l IH]; [done |]. intros Hp. simpl.
  apply not_elem_of_cons in Hp as [Hne Hp].
  rewrite bool_decide_eq_false_2 by congruence. simpl. by rewrite IH.
Qed.

Lemma filter_out_once (p : ObjectId) (l : list ObjectId) :
  NoDup l → p ∈ l →
  S (length (List.filter (λ q, negb (bool_decide (q = p))) l)) = length l.
Proof.
  induction l as [| q l IH]; intros Hnodup Hp; [by apply elem_of_nil in Hp |].
  apply NoDup_cons in Hnodup as [Hq Hnodup]. simpl.
  case_bool_decide as Heq; simpl.
  - subst q. by rewrite filter_out_absent.
  - apply elem_of_cons in Hp as [? | Hp]; [congruence |]. by rewrite IH.
Qed.

Lemma filter_out_elem_of (p q : ObjectId) (l : list ObjectId) :
  q ∈ List.filter (λ q, negb (bool_decide (q = p))) l ↔ q ∈ l ∧ q ≠ p.
Proof.
  rewrite !list_elem_of_In, filter_In. split; intros [Hin Hq]; (split; [done |]).
  - apply negb_true_iff, bool_decide_eq_false_1 in Hq. done.
  - by rewrite bool_decide_eq_false_2.
Qed.

Lemma filter_out_nil (p : ObjectId) (l : list ObjectId) :
  NoDup l → p ∈ l →
  List.filter (λ q, negb (bool_decide (q = p))) l = [] ↔ l = [p].
Proof.
  intros Hnodup Hp. split.
  - intros Hnil. pose proof (filter_out_once p l Hnodup Hp) as Hlen.
    rewrite Hnil in Hlen. destruct l as [| q [| ? ?]]; try done.
    apply list_elem_of_singleton in Hp. by subst.
  - intros ->. simpl. by rewrite bool_decide_eq_true_2.
Qed.

End chat_store.

(** ** What removes a chat and what does not *)

Section chat_removal.
Context `{Mongoose}.

Lemma ids_kept_refl w : ids_kept w w.
Proof. intros c Hc. eauto. Qed.

Lemma ids_kept_trans w1 w2 w3 : ids_kept w1 w2 → ids_kept w2 w3 → ids_kept w1 w3.
Proof.
  intros H12 H23 c Hc. destruct (H12 c Hc) as (c2 & Hc2 & <-).
  destruct (H23 c2 Hc2) as (c3 & Hc3 & <-). eauto.
Qed.

Lemma keeps_ids_keeps_chats {A} (m : M A) : keeps_ids m → keeps_chats m.
Proof. intros Hm s r s' Hquiet Hrun. by apply (Hm s r s'). Qed.

Lemma keeps_ids_storage {A} (op : World → Res A * World) :
  (∀ w, ids_kept w (snd (op w))) → keeps_ids (storage op).
Proof.
  intros Hop s r s' Hquiet. rewrite storage_run. intros [= _ <-]; simpl.
  rewrite Hquiet. auto.
Qed.

Lemma keeps_ids_ret {A} (a : A) : keeps_ids (mret a).
Proof. intros s r s' _ [= _ <-]. auto using ids_kept_refl. Qed.

Lemma keeps_ids_throw {A} msg : keeps_ids (@throw A msg).
Proof. intros s r s' _ [= _ <-]. auto using ids_kept_refl. Qed.

Lemma keeps_ids_liftR {A} (r : Res A) : keeps_ids (liftR r).
Proof. intros s r' s' _ [= _ <-]. auto using ids_kept_refl. Qed.

Lemma keeps_ids_bind {A B} (m : M A) (k : A → M B) :
  keeps_ids m → (∀ a, keeps_ids (k a)) → keeps_ids (m ≫= k).
Proof.
  intros Hm Hk s r s' Hquiet. unfold mbind, M_bind.
  destruct (m s) as [[a | e] s1] eqn:Hrun; destruct (Hm _ _ _ Hquiet Hrun) as [Hs H1].
  - intros Hrun'. assert (quiet s1) as Hquiet1 by (intros n w; rewrite Hs; apply Hquiet).
    destruct (Hk _ _ _ _ Hquiet1 Hrun') as [Hs' H2].
    split; [congruence | eauto using ids_kept_trans].
  - by intros [= _ <-].
Qed.

Lemma ids_kept_update_first id (f : Chat → Chat) w :
  (∀ c, chat_id (f c) = chat_id c) →
  ids_kept w (set_chats (Chat.update_first id f (chats w)) w).
Proof.
  intros Hf c. simpl. induction (chats w) as [| c0 cs IH]; [by intros ?%elem_of_nil |].
  simpl. intros Hc. apply elem_of_cons in Hc as [Heq | Hc].
  - subst c0. destruct (Chat.has_id id c); [exists (f c) | exists c];
      (split; [apply list_elem_of_here | auto]).
  - destruct (IH Hc) as (c' & Hc' & Hid).
    destruct (Chat.has_id id c0); [exists c | exists c'];
      (split; [by apply list_elem_of_further | auto]).
Qed.

Create HintDb keeps.
#[local] Hint Resolve keeps_ids_storage keeps_ids_ret keeps_ids_throw keeps_ids_liftR
  keeps_ids_bind ids_kept_refl : keeps.

Lemma keeps_ids_getForUser chatId userId : keeps_ids (Chat.getForUser chatId userId).
Proof.
  unfold Chat.getForUser. destruct (negb _); [auto with keeps |].
  apply keeps_ids_bind; [auto with keeps |]. intros id.
  apply keeps_ids_bind; [| auto with keeps].
  destruct userId as [[o | u] |]; [auto with keeps | | auto with keeps].
  destruct (bool_decide _); auto with keeps.
Qed.

Lemma keeps_ids_listForUser userId : keeps_ids (Chat.listForUser userId).
Proof. unfold Chat.listForUser. auto with keeps. Qed.

Lemma keeps_ids_findDirectPair a b : keeps_ids (Chat.findDirectPair a b).
Proof. unfold Chat.findDirectPair. repeat case_match; auto with keeps. Qed.

Lemma keeps_ids_createPair a b name : keeps_ids (Chat.createPair a b name).
Proof.
  unfold Chat.createPair. repeat case_match; auto with keeps.
  apply keeps_ids_bind; [auto with keeps |]. intros ps.
  case_match; [auto with keeps |]. apply keeps_ids_storage.
  intros w c Hc. unfold Chat.create. case_match; simpl; [eauto |].
  exists c. split; [apply elem_of_app; by left | done].
Qed.

Lemma keeps_ids_createMessage chatId senderId content :
  keeps_ids (Message.createMessage chatId senderId content).
Proof.
  unfold Message.createMessage. case_match; [auto with keeps |].
  do 2 (apply keeps_ids_bind; [auto with keeps |]; intros ?).
  apply keeps_ids_bind.
  - apply keeps_ids_storage. intros w c Hc. unfold Message.create.
    repeat case_match; simpl; eauto.
  - intros m. apply keeps_ids_bind; [| auto with keeps].
    apply keeps_ids_storage. intros w. unfold Chat.findByIdAndUpdate.
    case_match; simpl; [| apply ids_kept_refl]. by apply ids_kept_update_first.
Qed.

Lemma keeps_ids_getMessagesForChat chatId limit before :
  keeps_ids (Message.getMessagesForChat chatId limit before).
Proof. unfold Message.getMessagesForChat. case_match; auto with keeps. Qed.

Lemma keeps_ids_getMessageById messageId : keeps_ids (Message.getMessageById messageId).
Proof.
  unfold Message.getMessageById. apply keeps_ids_storage.
  intros w. case_match; apply ids_kept_refl.
Qed.

End chat_removal.

(** ** Leaving a chat *)

Section chat_leave.
Context `{Mongoose}.

Lemma leave_run chatId p s :
  quiet s →
  isValidObjectId chatId = true →
  Chat.leave chatId p s =
    match chat_of (world s) chatId with
    | None => (Ok "noop", resumed s (world s))
    | Some chat =>
        let ps := List.filter (λ q, negb (bool_decide (q = p))) (participants chat) in
        if (length ps =? 0)%nat then
          (Ok "deleted",
           resumed (resumed s (world s))
             (set_chats (Chat.remove_first (chat_id chat) (chats (world s))) (world s)))
        else if negb (length ps =? length (participants chat))%nat then
          (Ok "left",
           resumed (resumed s (world s))
             (set_chats
                (Chat.update_first (chat_id chat)
                   (λ c, {| chat_id := chat_id c; chat_name := chat_name c;
                            participants := ps;
                            lastMessage := lastMessage c;
                            lastMessageAt := lastMessageAt c;
                            chat_createdAt := chat_createdAt c;
                            chat_updatedAt := clock (world s) |})
                   (chats (world s))) (world s)))
        else (Ok "noop", resumed s (world s))
    end.
Proof.
  intros Hquiet Hvalid. unfold Chat.leave, chat_of.
  unfold mbind at 1, M_bind at 1. rewrite storage_run.
  unfold Chat.findById, cast_ObjectId. rewrite Hvalid; simpl.
  destruct (Chat.findOne _ (world s)) as [chat |] eqn:Hfind; [| done].
  destruct (length _ =? 0)%nat eqn:Hempty.
  - unfold mbind, M_bind. rewrite storage_run; simpl. by rewrite Hquiet.
  - destruct (negb _) eqn:Hchanged; [| done].
    unfold mbind, M_bind, peek. rewrite storage_run; simpl. rewrite !Hquiet.
    unfold Chat.save; simpl.
    destruct (find_has_id _ _ _ Hfind) as [_ ->].
    by rewrite (existsb_has_id _ _ _ Hfind).
Qed.

(** C7. In a run without interference on a store that satisfies its
    invariants, [leave(chatId, p)] with a well-formed chat id

    - returns "noop" and changes nothing when no chat is stored under the
      id or [p] is not one of its participants;
    - returns "deleted" when [p] is its only participant: the chat is
      gone, [getForUser] no longer finds it, whatever user id it is given
      and in whatever form, and messages are left as they are;
    - otherwise returns "left": the chat has one participant fewer, [p]
      is no longer one of them, all the others still are, and its
      [updatedAt] is the current time.

    With a chat id that is not well formed, [leave] does not return
    "noop": the lookup throws, and nothing is changed.

    Other chats are never affected, and no other operation of the two
    stores removes a chat. *)
Theorem leave_outcomes chatId p s :
  quiet s →
  store_ok (world s) →
  (if isValidObjectId chatId then
     ∃ outcome s',
       Chat.leave chatId p s = (Ok outcome, s') ∧
       (∀ id, id ≠ ObjectId_of chatId →
          List.find (Chat.has_id id) (chats (world s')) =
          List.find (Chat.has_id id) (chats (world s))) ∧
       messages (world s') = messages (world s) ∧
       match chat_of (world s) chatId with
       | None => outcome = "noop" ∧ world s' = world s
       | Some c =>
           if bool_decide (p ∈ participants c) then
             if bool_decide (participants c = [p]) then
               outcome = "deleted" ∧
               chat_of (world s') chatId = None ∧
               (∀ uid, fst (Chat.getForUser chatId (IdObject <$> uid) s') = Ok None) ∧
               (∀ userId found, fst (Chat.getForUser chatId userId s') ≠ Ok (Some found))
             else
               outcome = "left" ∧
               ∃ c', chat_of (world s') chatId = Some c' ∧
                     S (length (participants c')) = length (participants c) ∧
                     (p ∉ participants c') ∧
                     (∀ q, q ≠ p → q ∈ participants c' ↔ q ∈ participants c) ∧
                     chat_updatedAt c' = clock (world s)
           else outcome = "noop" ∧ world s' = world s
       end
   else
     ∃ e s', Chat.leave chatId p s = (Throw e, s') ∧ world s' = world s) ∧
  (∀ userId, keeps_chats (Chat.listForUser userId)) ∧
  (∀ chatId userId, keeps_chats (Chat.getForUser chatId userId)) ∧
  (∀ a b name, keeps_chats (Chat.createPair a b name)) ∧
  (∀ a b, keeps_chats (Chat.findDirectPair a b)) ∧
  (∀ chatId senderId content, keeps_chats (Message.createMessage chatId senderId content)) ∧
  (∀ chatId limit before, keeps_chats (Message.getMessagesForChat chatId limit before)) ∧
  (∀ messageId, keeps_chats (Message.getMessageById messageId)).
Proof.
  intros Hquiet [Hids Hchats].
  split; [| auto 10 using keeps_ids_keeps_chats, keeps_ids_listForUser, keeps_ids_getForUser,
              keeps_ids_createPair, keeps_ids_findDirectPair, keeps_ids_createMessage,
              keeps_ids_getMessagesForChat, keeps_ids_getMessageById].
  destruct (isValidObjectId chatId) eqn:Hvalid.
  2: { unfold Chat.leave. unfold mbind at 1, M_bind at 1. rewrite storage_run.
       unfold Chat.findById, cast_ObjectId. rewrite Hvalid; simpl.
       eexists _, _. split; [done |]. simpl. by rewrite Hquiet. }
  rewrite leave_run by done.
  destruct (chat_of (world s) chatId) as [c |] eqn:Hfind.
  2: { eexists _, _. split; [done |]. simpl. by rewrite Hquiet. }
  destruct (find_has_id _ _ _ Hfind) as [Hin Hid].
  rewrite Forall_forall in Hchats. destruct (Hchats c Hin) as [Hnodup Hnonempty].
  cbv zeta. case_bool_decide as Hp.
  - pose proof (filter_out_once p _ Hnodup Hp) as Hlen.
    pose proof (filter_out_nil p _ Hnodup Hp) as Hnil.
    case_bool_decide as Hlast.
    + destruct Hnil as [_ Hnil]. rewrite (Hnil Hlast); simpl.
      eexists _, _. split; [done |]. simpl. rewrite !Hquiet; simpl.
      assert (chat_of
                (set_chats (Chat.remove_first (chat_id c) (chats (world s))) (world s))
                chatId = None) as Hgone.
      { unfold chat_of, Chat.findOne; simpl. rewrite Hid.
        by apply find_remove_first_eq. }
      split; [intros id Hne; rewrite Hid; by apply find_remove_first_ne |].
      split; [done |]. split; [done |]. split; [done |].
      assert (∀ member,
                Chat.findOne (Chat.for_user (ObjectId_of chatId) member)
                  (set_chats (Chat.remove_first (chat_id c) (chats (world s))) (world s))
                = None) as Hnone.
      { intros member. apply find_none_iff. intros c' Hc'.
        unfold Chat.for_user. destruct (Chat.has_id _ c') eqn:Hc'id; [| done].
        exfalso. unfold chat_of, Chat.findOne in Hgone.
        rewrite find_none_iff in Hgone. specialize (Hgone c' Hc'). congruence. }
      split.
      * intros uid. rewrite getForUser_run by done; simpl. rewrite !Hquiet.
        by rewrite Hnone.
      * intros userId found Hfound.
        match type of Hfound with
        | fst (Chat.getForUser _ _ ?st) = _ =>
            destruct (Chat.getForUser chatId userId st) as [r st'] eqn:Hrun
        end.
        simpl in Hfound. subst r.
        apply getForUser_inv in Hrun as (_ & member & c' & Hfind' & _).
        simpl in Hfind'. rewrite !Hquiet in Hfind'. by rewrite Hnone in Hfind'.
    + destruct (length _ =? 0)%nat eqn:Hzero.
      { apply Nat.eqb_eq, nil_length_inv in Hzero. by apply Hnil in Hzero. }
      rewrite (proj2 (Nat.eqb_neq _ _)) by lia. simpl.
      eexists _, _. split; [done |]. simpl. rewrite !Hquiet; simpl.
      split; [intros id Hne; rewrite Hid; by apply find_update_first_ne |].
      split; [done |]. split; [done |].
      eexists. split.
      { unfold chat_of, Chat.findOne; simpl. rewrite Hid.
        rewrite find_update_first by done.
        unfold chat_of, Chat.findOne in Hfind. by rewrite Hfind. }
      simpl. split; [done |]. split; [rewrite filter_out_elem_of; tauto |].
      split; [| done]. intros q Hq. rewrite filter_out_elem_of. tauto.
  - rewrite filter_out_absent by done.
    destruct (length _ =? 0)%nat eqn:Hzero.
    { apply Nat.eqb_eq, nil_length_inv in Hzero. done. }
    rewrite Nat.eqb_refl; simpl.
    eexists _, _. split; [done |]. simpl. by rewrite Hquiet.
Qed.

End chat_leave.

(** ** Creating a direct chat *)

Section chat_create.
Context `{Mongoose}.

Lemma createPair_run a b name s c s' :
  Chat.createPair (Some a) (Some b) name s = (Ok c, s') →
  a ≠ b ∧
  isValidObjectId a = true ∧ isValidObjectId b = true ∧
  Chat.create (Chat.trimmed_name name) [ObjectId_of a; ObjectId_of b] (world s)
    = (Ok c, set_chats (chats (world s) ++ [c]) (set_generated (S (generated (world s))) (world s))) ∧
  existsb (Chat.has_id (chat_id c)) (chats (world s)) = false ∧
  s' = resumed s (set_chats (chats (world s) ++ [c])
                    (set_generated (S (generated (world s))) (world s))).
Proof.
  unfold Chat.createPair, Chat.dedup, mbind, M_bind, liftR.
  case_bool_decide as Hab; simpl; unfold new_ObjectId.
  - destruct (isValidObjectId a); simpl; [| done]. by unfold throw.
  - destruct (isValidObjectId a); simpl; [| done].
    destruct (isValidObjectId b); simpl; [| done].
    rewrite storage_run. unfold Chat.create.
    destruct (existsb _ _) eqn:Hfresh; simpl; [done |].
    intros [= <- <-]. cbn [chat_id]. by rewrite Hfresh.
Qed.

(** C3, as amended.  [createPair] checks nothing about the chats already
    stored: in a run without interference, a successful [createPair(a, b)]
    on identifiers in normal form has [a] and [b] distinct and appends one
    chat, under an id no stored chat has, whose participants are exactly
    [a] and [b]; the chats stored before stay as they are.  If no direct
    chat of [a] and [b] was stored before the call, as when [findDirectPair]
    has just found none, the new chat is the only one afterwards. *)
Theorem createPair_appends a b name s c s' :
  quiet s →
  ObjectId_of a = a →
  ObjectId_of b = b →
  Chat.createPair (Some a) (Some b) name s = (Ok c, s') →
  a ≠ b ∧
  participants c = [a; b] ∧
  chats (world s') = (chats (world s) ++ [c])%list ∧
  (∀ c0, c0 ∈ chats (world s) → chat_id c0 ≠ chat_id c) ∧
  (Chat.findOne (Chat.direct_pair a b) (world s) = None →
   ∀ c', c' ∈ chats (world s') → Chat.direct_pair a b c' = true → c' = c).
Proof.
  intros Hquiet Ha Hb Hrun.
  apply createPair_run in Hrun as (Hab & _ & _ & Hcreate & Hfresh & ->).
  simpl. rewrite Hquiet; simpl.
  unfold Chat.create in Hcreate. rewrite Ha, Hb in Hcreate.
  destruct (existsb _ _); [done |]. injection Hcreate as Hc _.
  split; [done |]. split; [by rewrite <- Hc |]. split; [done |]. split.
  - intros c0 Hc0 Hid.
    assert (existsb (Chat.has_id (chat_id c)) (chats (world s)) = true) as Hex.
    { apply existsb_exists. exists c0. split; [by apply list_elem_of_In |].
      by apply bool_decide_eq_true_2. }
    congruence.
  - intros Hnone c' Hc' Hpair. apply elem_of_app in Hc' as [Hold | Hnew].
    + unfold Chat.findOne in Hnone. rewrite find_none_iff in Hnone.
      specialize (Hnone c' Hold). congruence.
    + by apply list_elem_of_singleton in Hnew.
Qed.

End chat_create.

(** ** The store invariants are preserved *)

Section store_invariants.
Context `{Mongoose}.

Lemma ids_update_first id (f : Chat → Chat) cs :
  (∀ c, chat_id (f c) = chat_id c) →
  chat_id <$> Chat.update_first id f cs = chat_id <$> cs.
Proof.
  intros Hf. induction cs as [| c cs IH]; [done |]. cbn [Chat.update_first].
  destruct (Chat.has_id id c); rewrite !fmap_cons; [by rewrite Hf | by rewrite IH].
Qed.

Lemma Forall_update_first (P : Chat → Prop) id (f : Chat → Chat) cs :
  Forall P cs → (∀ c, c ∈ cs → Chat.has_id id c = true → P (f c)) →
  Forall P (Chat.update_first id f cs).
Proof.
  induction 1 as [| c cs Hc Hcs IH]; intros Hf; simpl; [constructor |].
  destruct (Chat.has_id id c) eqn:Hid.
  - constructor; [apply Hf; [apply list_elem_of_here | done] | done].
  - constructor; [done |]. apply IH. intros c' Hc'. apply Hf. by apply list_elem_of_further.
Qed.

Lemma remove_first_sublist id cs : Chat.remove_first id cs `sublist_of` cs.
Proof.
  induction cs as [| c cs IH]; simpl; [constructor |].
  destruct (Chat.has_id id c); [by apply sublist_cons | by apply sublist_skip].
Qed.

Lemma store_ok_remove_first id w :
  store_ok w → store_ok (set_chats (Chat.remove_first id (chats w)) w).
Proof.
  intros [Hids Hchats]. split; simpl.
  - eapply sublist_NoDup; [done |]. apply fmap_sublist, remove_first_sublist.
  - rewrite Forall_forall in Hchats |- *. intros c Hc. apply Hchats.
    by apply (sublist_subseteq _ _ (remove_first_sublist id (chats w))).
Qed.

(** X7. [leave] keeps the invariants of the chat collection: after a
    [leave] that returned normally, run without interference on a store
    with unique chat ids whose chats each have at least one participant
    and none twice, the store still has these properties; a chat that
    would become empty is removed, not stored empty. *)
Lemma store_ok_leave chatId p s outcome s' :
  quiet s →
  isValidObjectId chatId = true →
  store_ok (world s) →
  Chat.leave chatId p s = (Ok outcome, s') →
  store_ok (world s').
Proof.
  intros Hquiet Hvalid Hok. rewrite leave_run by done.
  destruct (chat_of (world s) chatId) as [c |] eqn:Hfind.
  2: { intros [= _ <-]; simpl. by rewrite Hquiet. }
  cbv zeta. destruct (length _ =? 0)%nat eqn:Hzero.
  - intros [= _ <-]; simpl. rewrite !Hquiet. by apply store_ok_remove_first.
  - destruct (negb _).
    2: { intros [= _ <-]; simpl. by rewrite Hquiet. }
    intros [= _ <-]; simpl. rewrite !Hquiet.
    destruct Hok as [Hids Hchats]. split; simpl.
    + by rewrite ids_update_first.
    + apply Forall_update_first; [done |]. intros c' Hc' _.
      destruct (find_has_id _ _ _ Hfind) as [Hin _].
      rewrite Forall_forall in Hchats. destruct (Hchats c Hin) as [Hnodup _].
      split; simpl.
      * apply NoDup_ListNoDup, List.NoDup_filter, NoDup_ListNoDup, Hnodup.
      * intros Hnil. rewrite Hnil in Hzero. done.
Qed.

(** X6. [createPair] keeps the invariants of the chat collection: after
    a successful call for two ids in normal form, run without
    interference, chat ids are still unique and every stored chat has
    at least one participant and none twice. *)
Lemma store_ok_createPair a b name s c s' :
  quiet s →
  ObjectId_of a = a →
  ObjectId_of b = b →
  store_ok (world s) →
  Chat.createPair (Some a) (Some b) name s = (Ok c, s') →
  store_ok (world s').
Proof.
  intros Hquiet Ha Hb [Hids Hchats] Hrun.
  apply createPair_run in Hrun as (Hab & _ & _ & Hcreate & Hfresh & ->).
  simpl. rewrite Hquiet.
  assert (participants c = [a; b]) as Hps.
  { unfold Chat.create in Hcreate. rewrite Ha, Hb in Hcreate.
    destruct (existsb _ _); [done |]. by injection Hcreate as <- _. }
  split; simpl.
  - rewrite fmap_app. apply NoDup_app. split; [done |]. split.
    + intros id Hid Hnew. apply list_elem_of_singleton in Hnew. subst id.
      apply list_elem_of_fmap in Hid as (c0 & Hid & Hc0).
      assert (existsb (Chat.has_id (chat_id c)) (chats (world s)) = true) as Hex.
      { apply existsb_exists. exists c0. split; [by apply list_elem_of_In |].
        by apply bool_decide_eq_true_2. }
      congruence.
    + apply NoDup_singleton.
  - apply Forall_app. split; [done |]. apply Forall_singleton.
    split; rewrite Hps; [| done].
    apply NoDup_cons. split; [| apply NoDup_singleton].
    by intros ?%list_elem_of_singleton.
Qed.

(** X8. [createMessage] keeps the invariants of the chat collection:
    advancing the last-message pointer of a chat changes neither the
    chat ids nor anybody's participants. *)
Lemma store_ok_createMessage chatId senderId content s m s' :
  quiet s →
  store_ok (world s) →
  Message.createMessage chatId senderId content s = (Ok m, s') →
  store_ok (world s').
Proof.
  intros Hquiet [Hids Hchats]. unfold Message.createMessage.
  destruct (bool_decide (trim content = "")); [done |].
  unfold new_ObjectId, mbind, M_bind, liftR.
  destruct (isValidObjectId chatId) eqn:Hchat; [| done].
  destruct (isValidObjectId senderId); [| done].
  rewrite storage_run.
  destruct (Message.create _ _ _ (world s)) as [[m0 | e] w1] eqn:Hcreate; simpl; [| done].
  rewrite storage_run; simpl. rewrite !Hquiet.
  unfold Chat.findByIdAndUpdate, cast_ObjectId. rewrite Hchat; simpl.
  unfold mret, M_ret. intros [= _ <-]; simpl. rewrite Hquiet.
  assert (chats w1 = chats (world s)) as Hsame.
  { unfold Message.create in Hcreate. repeat case_match; try done.
    by injection Hcreate as _ <-. }
  split; simpl; rewrite Hsame.
  - by rewrite ids_update_first.
  - apply Forall_update_first; [done |]. intros c Hc _.
    rewrite Forall_forall in Hchats. apply (Hchats c Hc).
Qed.

End store_invariants.

(** ** The scenarios, run *)

Section scenarios.
Import Hex Scenario.

Lemma s0_quiet : quiet s0.
Proof. intros n w. reflexivity. Defined.

Lemma s_empty_quiet : quiet s_empty.
Proof. intros n w. reflexivity. Defined.

Lemma w0_store_ok : store_ok w0.
Proof.
  split.
  - apply NoDup_singleton.
  - apply Forall_singleton. split; [| done].
    apply NoDup_cons. split; [| apply NoDup_singleton].
    intros Hin. apply list_elem_of_singleton in Hin. discriminate Hin.
Defined.

(** A malformed chat id is refused before anything is stored. *)
Lemma sendMessage_rejects_invalid_input_witness :
  SocketService.handleSendMessage socket1
      {| sm_chatId := "not-an-id"; sm_content := "hi" |} s0 =
    (Ok tt, with_emission s0 (error_to socket1 "Invalid chat ID")).
Proof.
  assert (isValidObjectId "not-an-id" = false ∨ trim "hi" = "") as Hbad
    by (left; vm_compute; reflexivity).
  exact (sendMessage_rejects_invalid_input socket1
           {| sm_chatId := "not-an-id"; sm_content := "hi" |} s0 Hbad).
Defined.

(** Cid is not a participant of [chatC] and may not join its room. *)
Lemma joinRoom_denied_witness :
  SocketService.handleJoinRoom socket3 {| jr_chatId := idC |} s0 =
    (Ok tt,
     with_emission (resumed s0 (world s0))
       (error_to socket3 "Chat not found or access denied")).
Proof.
  apply (joinRoom_denied socket3 idC U3 s0).
  - vm_compute. reflexivity.
  - reflexivity.
  - intros c Hc _. apply list_elem_of_singleton in Hc. subst c.
    simpl. intros Hin.
    apply elem_of_cons in Hin as [Heq | Hin]; [discriminate Heq |].
    apply list_elem_of_singleton in Hin. discriminate Hin.
Defined.

(** Bob, who is not in the room of the chat, is notified of Ann's
    message. *)
Lemma sendMessage_notifies_absent_others_witness :
  ∃ s',
    SocketService.handleSendMessage socket1 hello s0 = (Ok tt, s') ∧
    to_room (world s') ("chat:" +:+ idC) (new_message idC populated1) ∈ emitted s0 s' ∧
    ∀ p,
      p ∈ participants chatC →
      p ≠ user_id U1 →
      p ∉ presenceOf (world s') idC →
      to_room (world s') ("user:" +:+ p) (chat_updated idC populated1) ∈ emitted s0 s'.
Proof.
  apply (sendMessage_notifies_absent_others socket1 idC " hello " s0
           found1 (after_lookup s0) message1 (after_write s0) populated1 (after_refetch s0)).
  - vm_compute. reflexivity.
  - vm_compute. discriminate.
  - vm_compute. reflexivity.
  - vm_compute. reflexivity.
  - vm_compute. reflexivity.
Defined.

(** The stored message is gone when the send re-fetches it. *)
Lemma sendMessage_refetch_failure_witness :
  ∃ s',
    SocketService.handleSendMessage socket1 hello s0_purged = (Ok tt, s') ∧
    emitted s0_purged s' = [error_to socket1 "Failed to retrieve created message"] ∧
    world s' = world (after_refetch s0_purged).
Proof.
  apply (sendMessage_refetch_failure socket1 idC " hello " s0_purged
           found1 (after_lookup s0_purged) message1 (after_write s0_purged)
           (after_refetch s0_purged)).
  - vm_compute. reflexivity.
  - vm_compute. discriminate.
  - vm_compute. reflexivity.
  - vm_compute. reflexivity.
  - vm_compute. reflexivity.
Defined.

(** After Ann's message is created, [chatC] points to it. *)
Lemma createMessage_advances_pointer_witness :
  ∃ w,
    world (after_write s0) = sched (after_lookup s0) (S (tick (after_lookup s0))) w ∧
    msg_chat message1 = ObjectId_of idC ∧
    (∀ c, chat_of w idC = Some c →
       lastMessage c = Some (msg_id message1) ∧
       lastMessageAt c = Some (msg_createdAt message1)) ∧
    (quiet (after_lookup s0) →
       world (after_write s0) = w ∧ message1 ∈ messages w ∧
       (is_Some (chat_of (world (after_lookup s0)) idC) → is_Some (chat_of w idC))).
Proof.
  apply (createMessage_advances_pointer idC (user_id U1) "hello"
           (after_lookup s0) message1 (after_write s0)).
  vm_compute. reflexivity.
Defined.

(** Bob leaves [chatC], which Ann keeps. *)
Lemma leave_outcomes_witness :
  ∃ s',
    Chat.leave idC (user_id U2) s0 = (Ok "left", s') ∧
    ∃ c', chat_of (world s') idC = Some c' ∧
          S (length (participants c')) = 2%nat ∧
          (user_id U2 ∉ participants c') ∧
          chat_updatedAt c' = 100.
Proof.
  assert (isValidObjectId idC = true) as Hvalid by (vm_compute; reflexivity).
  destruct (leave_outcomes idC (user_id U2) s0 s0_quiet w0_store_ok) as [Hleave _].
  rewrite Hvalid in Hleave. destruct Hleave as (outcome & s' & Hrun & _ & _ & Hcase).
  change (chat_of (world s0) idC) with (Some chatC) in Hcase. cbv beta iota in Hcase.
  rewrite bool_decide_eq_true_2 in Hcase
    by (apply list_elem_of_further, list_elem_of_here).
  rewrite bool_decide_eq_false_2 in Hcase by discriminate.
  destruct Hcase as (-> & c' & Hc' & Hlen & Hgone & _ & Htime).
  exists s'. split; [exact Hrun |]. exists c'. auto.
Defined.

(** The first direct chat of Ann and Bob. *)
Lemma createPair_appends_witness :
  let run := Chat.createPair (Some (user_id U1)) (Some (user_id U2)) None s_empty in
  ∃ c,
    fst run = Ok c ∧
    user_id U1 ≠ user_id U2 ∧
    participants c = [user_id U1; user_id U2] ∧
    chats (world (snd run)) = [c] ∧
    ∀ c', c' ∈ chats (world (snd run)) →
      Chat.direct_pair (user_id U1) (user_id U2) c' = true → c' = c.
Proof.
  set (c := {| chat_id := "000000000000000000000000"; chat_name := None;
               participants := [user_id U1; user_id U2];
               lastMessage := None; lastMessageAt := None;
               chat_createdAt := 100; chat_updatedAt := 100 |}).
  assert (Chat.createPair (Some (user_id U1)) (Some (user_id U2)) None s_empty =
            (Ok c, snd (Chat.createPair (Some (user_id U1)) (Some (user_id U2)) None s_empty)))
    as Hrun by (vm_compute; reflexivity).
  assert (ObjectId_of (user_id U1) = user_id U1) as H1 by (vm_compute; reflexivity).
  assert (ObjectId_of (user_id U2) = user_id U2) as H2 by (vm_compute; reflexivity).
  destruct (createPair_appends (user_id U1) (user_id U2) None s_empty c _
              s_empty_quiet H1 H2 Hrun) as (Hne & Hps & Hchats & _ & Hunique).
  cbv zeta. exists c. rewrite Hrun. simpl.
  split; [reflexivity |]. split; [exact Hne |]. split; [exact Hps |].
  split; [exact Hchats |]. apply Hunique. reflexivity.
Defined.

(** C1, as stated, fails for the sender: Ann, a participant of [chatC]
    with no connection in its room, sends [hello].  The send succeeds
    (the room gets [new_message] and Bob gets [chat_updated]), Ann is not
    in the presence snapshot, and no [chat_updated] goes to Ann's personal
    channel. *)
Lemma sendMessage_skips_absent_sender :
  let s' := snd (SocketService.handleSendMessage socket1 hello s0) in
  user_id U1 ∈ participants chatC ∧
  (user_id U1 ∉ presenceOf (world s') idC) ∧
  emitted s0 s' =
    [to_room (world s') ("chat:" +:+ idC) (new_message idC populated1);
     to_room (world s') ("user:" +:+ user_id U2) (chat_updated idC populated1)] ∧
  to_room (world s') ("user:" +:+ user_id U1) (chat_updated idC populated1)
    ∉ emitted s0 s'.
Proof.
  cbv zeta.
  assert (emitted s0 (snd (SocketService.handleSendMessage socket1 hello s0)) =
    [to_room (world (snd (SocketService.handleSendMessage socket1 hello s0)))
       ("chat:" +:+ idC) (new_message idC populated1);
     to_room (world (snd (SocketService.handleSendMessage socket1 hello s0)))
       ("user:" +:+ user_id U2) (chat_updated idC populated1)]) as Hout
    by (vm_compute; reflexivity).
  split; [apply list_elem_of_here |]. split; [| split; [exact Hout |]].
  - assert (presenceOf (world (snd (SocketService.handleSendMessage socket1 hello s0))) idC
            = ∅) as -> by (vm_compute; reflexivity).
    apply not_elem_of_empty.
  - rewrite Hout. intros Hin.
    apply elem_of_cons in Hin as [Heq | Hin]; [discriminate Heq |].
    apply list_elem_of_singleton in Hin. discriminate Hin.
Qed.

(** C3, as stated, fails: two [createPair] calls for Ann and Bob in a row
    both succeed and leave two chats, under different ids, with the same
    two participants. *)
Lemma createPair_twice_duplicates :
  let run1 := Chat.createPair (Some (user_id U1)) (Some (user_id U2)) None s_empty in
  let run2 := Chat.createPair (Some (user_id U1)) (Some (user_id U2)) None (snd run1) in
  ∃ c1 c2,
    fst run1 = Ok c1 ∧
    fst run2 = Ok c2 ∧
    chats (world (snd run2)) = [c1; c2] ∧
    chat_id c1 ≠ chat_id c2 ∧
    participants c1 = [user_id U1; user_id U2] ∧
    participants c2 = [user_id U1; user_id U2].
Proof.
  cbv zeta.
  exists {| chat_id := "000000000000000000000000"; chat_name := None;
            participants := [user_id U1; user_id U2];
            lastMessage := None; lastMessageAt := None;
            chat_createdAt := 100; chat_updatedAt := 100 |},
         {| chat_id := "000000000000000000000001"; chat_name := None;
            participants := [user_id U1; user_id U2];
            lastMessage := None; lastMessageAt := None;
            chat_createdAt := 100; chat_updatedAt := 100 |}.
  split; [vm_compute; reflexivity |]. split; [vm_compute; reflexivity |].
  split; [vm_compute; reflexivity |]. split; [discriminate | done].
Qed.

(** C7, as stated, fails on a chat id that is not well formed: no chat is
    stored under "not-an-id", so the chat is absent, and [leave] throws
    instead of returning "noop". *)
Lemma leave_malformed_id_throws :
  Forall (λ c, chat_id c ≠ "not-an-id") (chats (world s0)) ∧
  chat_of (world s0) "not-an-id" = None ∧
  Chat.leave "not-an-id" (user_id U1) s0 =
    (Throw "Cast to ObjectId failed", resumed s0 (world s0)).
Proof.
  split; [| split; vm_compute; reflexivity].
  apply Forall_singleton. discriminate.
Qed.

(** The presence scenario: Ann joins the room of [chatC] and sends
    [hello]; her connection gets [new_message] through the room, and Bob,
    who has not joined, gets [chat_updated] on his personal channel. *)
Example presence_scenario :
  let s1 := snd (SocketService.handleJoinRoom socket1 {| jr_chatId := idC |} s_online) in
  let s2 := snd (SocketService.handleSendMessage socket1 hello s1) in
  emitted s_online s1 =
    [{| target := ToSocket "s1"; receivers := {[ "s1" ]};
        event := joined_room idC found1 |}] ∧
  emitted s1 s2 =
    [{| target := ToRoom ("chat:" +:+ idC); receivers := {[ "s1" ]};
        event := new_message idC populated1 |};
     {| target := ToRoom ("user:" +:+ user_id U2); receivers := {[ "s2" ]};
        event := chat_updated idC populated1 |}].
Proof. split; vm_compute; reflexivity. Qed.

(** The pagination scenario: of 250 messages a limit of 1000 returns the
    200 newest, newest first; a limit of 10 before the time of the 50th
    newest returns the ten that precede it. *)
Example pagination_scenario :
  match fst (Message.getMessagesForChat idC (Some 1000) None s_long) with
  | Ok page =>
      length page = 200%nat ∧ pm_createdAt <$> take 3 page = [249; 248; 247]
  | Throw _ => False
  end ∧
  match fst (Message.getMessagesForChat idC (Some 10) (Some 200) s_long) with
  | Ok page => pm_createdAt <$> page = [199; 198; 197; 196; 195; 194; 193; 192; 191; 190]
  | Throw _ => False
  end ∧
  match fst (Message.getMessagesForChat idC (Some (-3)) None s_long) with
  | Ok page => pm_createdAt <$> page = [249]
  | Throw _ => False
  end.
Proof. vm_compute. repeat split; reflexivity. Qed.

End scenarios.

(** * Further properties of the code *)

(** ** [trim] *)

Lemma trimEnd_idempotent s : trimEnd (trimEnd s) = trimEnd s.
Proof.
  induction s as [| c r IH]; [done |]. simpl.
  destruct (trimEnd r) as [| c' r'] eqn:Hr.
  - destruct (isWhiteSpace c) eqn:Hc; simpl; [done | by rewrite Hc].
  - simpl in *. by rewrite IH.
Qed.

Lemma trimStart_fixed s :
  match s with
  | EmptyString => True
  | String c _ => isWhiteSpace c = false
  end → trimStart s = s.
Proof. destruct s as [| c r]; simpl; [done |]. by intros ->. Qed.

Lemma trimStart_head s :
  match trimStart s with
  | EmptyString => True
  | String c _ => isWhiteSpace c = false
  end.
Proof.
  induction s as [| c r IH]; simpl; [done |].
  destruct (isWhiteSpace c) eqn:Hc; [done | by simpl].
Qed.

Lemma trimEnd_head s :
  match s with
  | EmptyString => True
  | String c _ => isWhiteSpace c = false
  end →
  match trimEnd s with
  | EmptyString => s = EmptyString
  | String c _ => isWhiteSpace c = false
  end.
Proof.
  destruct s as [| c r]; simpl; [done |]. intros Hc.
  destruct (trimEnd r); [by rewrite Hc | done].
Qed.

Lemma trim_idempotent s : trim (trim s) = trim s.
Proof.
  unfold trim. pose proof (trimEnd_head _ (trimStart_head s)) as Hhead.
  rewrite (trimStart_fixed (trimEnd (trimStart s))).
  - apply trimEnd_idempotent.
  - destruct (trimEnd (trimStart s)); done.
Qed.

(** ** More on the chat entity store *)

Section chat_store_more.
Context `{Mongoose}.

(** X1. [getForUser] checks membership exactly when it is given a user
    id that is not the empty string.  A chat it returns is stored under
    the given chat id, which is well formed, and comes back in populated
    form.  With a user id given as an [ObjectId], that user is among its
    participants; with one given as a string that is not empty, the
    string is a well-formed identifier and the user it names is among the
    participants.  The empty string counts as no user id: the call runs
    as the one without a user id, which checks no membership. *)
Theorem getForUser_returns_member_chat chatId (userId : option Id) s pc s' :
  Chat.getForUser chatId userId s = (Ok (Some pc), s') →
  isValidObjectId chatId = true ∧
  pc_chat pc ∈ chats (world s) ∧
  chat_id (pc_chat pc) = ObjectId_of chatId ∧
  pc = Chat.populate (world s) (pc_chat pc) ∧
  match userId with
  | Some (IdObject o) => o ∈ participants (pc_chat pc)
  | Some (IdString u) =>
      if bool_decide (u = "")
      then Chat.getForUser chatId None s = (Ok (Some pc), s')
      else isValidObjectId u = true ∧ ObjectId_of u ∈ participants (pc_chat pc)
  | None => True
  end.
Proof.
  intros Hrun.
  destruct (getForUser_inv _ _ _ _ _ Hrun) as (Hvalid & member & c & Hfind & -> & Hmember).
  simpl. apply find_some in Hfind as [Hin Hq]. apply list_elem_of_In in Hin.
  unfold Chat.for_user in Hq. apply andb_prop in Hq as [Hid Hq].
  apply bool_decide_eq_true_1 in Hid.
  split; [done |]. split; [done |]. split; [done |]. split; [done |].
  destruct userId as [[o | u] |]; [| | done].
  - subst member. by apply bool_decide_eq_true_1 in Hq.
  - case_bool_decide as Hempty.
    + subst u. exact Hrun.
    + destruct Hmember as [[? _] | (_ & Hu & ->)]; [done |].
      split; [done |]. by apply bool_decide_eq_true_1 in Hq.
Qed.

Lemma direct_pair_participants a b c :
  a ≠ b →
  Chat.direct_pair a b c = true ↔ participants c = [a; b] ∨ participants c = [b; a].
Proof.
  intros Hab. unfold Chat.direct_pair. split.
  - intros Hq. apply andb_prop in Hq as [Hq Hlen]. apply andb_prop in Hq as [Ha Hb].
    apply bool_decide_eq_true_1 in Ha. apply bool_decide_eq_true_1 in Hb.
    apply Nat.eqb_eq in Hlen.
    destruct (participants c) as [| x [| y [| ? ?]]]; try done.
    apply elem_of_cons in Ha as [-> | Ha]; apply elem_of_cons in Hb as [-> | Hb];
      try done.
    + apply list_elem_of_singleton in Hb as ->. by left.
    + apply list_elem_of_singleton in Ha as ->. by right.
    + apply list_elem_of_singleton in Ha as ->.
      by apply list_elem_of_singleton in Hb as ->.
  - intros [-> | ->]; simpl; rewrite !bool_decide_eq_true_2; try done;
      repeat (first [apply list_elem_of_here | apply list_elem_of_further]).
Qed.

(** X2. For two distinct users [findDirectPair] is exact: the chat it
    returns is stored and its participants are these two users and no one
    else, and it returns nothing only when no stored chat has exactly
    these two participants.  It never changes the store. *)
Theorem findDirectPair_exact a b s :
  a ≠ b →
  ∃ r,
    Chat.findDirectPair (Some a) (Some b) s = (Ok r, resumed s (world s)) ∧
    match r with
    | Some c =>
        c ∈ chats (world s) ∧ (participants c = [a; b] ∨ participants c = [b; a])
    | None =>
        ∀ c, c ∈ chats (world s) → participants c ≠ [a; b] ∧ participants c ≠ [b; a]
    end.
Proof.
  intros Hab. eexists. split.
  { unfold Chat.findDirectPair. by rewrite storage_run. }
  simpl. destruct (Chat.findOne _ _) as [c |] eqn:Hfind.
  - apply find_some in Hfind as [Hin Hq]. split; [by apply list_elem_of_In |].
    by apply direct_pair_participants.
  - unfold Chat.findOne in Hfind. rewrite find_none_iff in Hfind.
    intros c Hc. specialize (Hfind c Hc).
    split; intros Hps;
      (assert (Chat.direct_pair a b c = true) as Htrue
         by (apply direct_pair_participants; auto)); congruence.
Qed.

Lemma find_snoc {A} (q : A → bool) (l : list A) (x : A) :
  q x = true →
  ∃ y, List.find q (l ++ [x]) = Some y ∧ q y = true ∧ (List.find q l = None → y = x).
Proof.
  intros Hx. induction l as [| z l IH]; simpl.
  - rewrite Hx. by exists x.
  - destruct (q z) eqn:Hz; [by exists z | apply IH].
Qed.

(** X3. After a successful [createPair(a, b)], run without interference
    on identifiers in normal form, [findDirectPair] finds a chat of
    exactly these two users, whichever of them is named first; it is the
    created chat when none was stored before. *)
Theorem createPair_then_findDirectPair a b name s c s' :
  quiet s →
  ObjectId_of a = a →
  ObjectId_of b = b →
  Chat.createPair (Some a) (Some b) name s = (Ok c, s') →
  ∃ c1 c2,
    fst (Chat.findDirectPair (Some a) (Some b) s') = Ok (Some c1) ∧
    fst (Chat.findDirectPair (Some b) (Some a) s') = Ok (Some c2) ∧
    (participants c1 = [a; b] ∨ participants c1 = [b; a]) ∧
    (participants c2 = [a; b] ∨ participants c2 = [b; a]) ∧
    (Chat.findOne (Chat.direct_pair a b) (world s) = None → c1 = c ∧ c2 = c).
Proof.
  intros Hquiet Ha Hb Hrun.
  apply createPair_run in Hrun as (Hab & _ & _ & Hcreate & Hfresh & ->).
  assert (participants c = [a; b]) as Hps.
  { unfold Chat.create in Hcreate. rewrite Ha, Hb in Hcreate.
    destruct (existsb _ _); [done |]. by injection Hcreate as <- _. }
  assert (∀ x y c0, Chat.direct_pair x y c0 = Chat.direct_pair y x c0) as Hsym.
  { intros x y c0. unfold Chat.direct_pair.
    by rewrite (andb_comm (bool_decide (x ∈ _))). }
  assert (Chat.direct_pair a b c = true) as Hpair
    by (apply direct_pair_participants; auto).
  unfold Chat.findDirectPair. rewrite !storage_run. simpl. rewrite !Hquiet. simpl.
  unfold Chat.findOne; simpl.
  destruct (find_snoc (Chat.direct_pair a b) (chats (world s)) c Hpair)
    as (c1 & -> & Hc1 & Hnew1).
  destruct (find_snoc (Chat.direct_pair b a) (chats (world s)) c)
    as (c2 & -> & Hc2 & Hnew2); [by rewrite Hsym |].
  exists c1, c2. split; [done |]. split; [done |].
  split; [by apply direct_pair_participants |].
  split; [rewrite Hsym in Hc2; by apply direct_pair_participants |].
  intros Hnone. split; [by apply Hnew1 |]. apply Hnew2.
  unfold Chat.findOne in Hnone. rewrite find_none_iff in Hnone |- *.
  intros c0 Hc0. rewrite Hsym. by apply Hnone.
Qed.

End chat_store_more.

Section chat_store_more2.
Context `{Mongoose}.

(** X4. Whatever [createPair] returns is a direct chat of two different
    users: both ids were given, they differ, the chat has exactly their
    two normalised ids as participants (so [isDirect] holds and [isGroup]
    does not) and no last message yet. *)
Theorem createPair_creates_direct a b name s c s' :
  Chat.createPair a b name s = (Ok c, s') →
  ∃ x y,
    a = Some x ∧ b = Some y ∧ x ≠ y ∧
    participants c = [ObjectId_of x; ObjectId_of y] ∧
    isDirect c = true ∧ isGroup c = false ∧
    lastMessage c = None ∧ lastMessageAt c = None.
Proof.
  intros Hrun. destruct a as [x |], b as [y |]; try done.
  apply createPair_run in Hrun as (Hxy & _ & _ & Hcreate & _ & _).
  unfold Chat.create in Hcreate. destruct (existsb _ _); [done |].
  injection Hcreate as <- _. exists x, y. by repeat split.
Qed.

#[local] Instance updated_first_total : Total Chat.updated_first.
Proof. intros c1 c2. unfold Chat.updated_first. lia. Qed.

#[local] Instance updated_first_trans : Transitive Chat.updated_first.
Proof. intros c1 c2 c3. unfold Chat.updated_first. lia. Qed.

(** X5. [listForUser] returns, in populated form, exactly the stored
    chats that list the user among their participants, each as often as
    it is stored, ordered by [updatedAt] with the most recent first; the
    store is left as it is. *)
Theorem listForUser_lists_memberships userId s :
  ∃ cs,
    Chat.listForUser userId s = (Ok (Chat.populate (world s) <$> cs), resumed s (world s)) ∧
    StronglySorted Chat.updated_first cs ∧
    cs ≡ₚ List.filter (λ c, bool_decide (userId ∈ participants c)) (chats (world s)) ∧
    ∀ c, c ∈ cs ↔ c ∈ chats (world s) ∧ userId ∈ participants c.
Proof.
  eexists. split; [unfold Chat.listForUser; by rewrite storage_run |].
  split; [apply StronglySorted_merge_sort; apply _ |].
  split; [apply merge_sort_Permutation |].
  intros c. rewrite merge_sort_Permutation.
  rewrite !list_elem_of_In, filter_In, bool_decide_eq_true, list_elem_of_In.
  tauto.
Qed.

(** X9. Leaving is idempotent: after a [leave] that returned normally, run
    without interference on a store that satisfies its invariants, a
    second [leave] of the same user from the same chat returns "noop" and
    changes nothing. *)
Theorem leave_again_noop chatId p s outcome s' :
  quiet s →
  isValidObjectId chatId = true →
  store_ok (world s) →
  Chat.leave chatId p s = (Ok outcome, s') →
  ∃ s'', Chat.leave chatId p s' = (Ok "noop", s'') ∧ world s'' = world s'.
Proof.
  intros Hquiet Hvalid [Hids Hchats] Hrun.
  assert (quiet s') as Hquiet'.
  { rewrite leave_run in Hrun by done.
    destruct (chat_of (world s) chatId); cbv zeta in Hrun;
      repeat case_match; injection Hrun as _ <-; done. }
  rewrite (leave_run chatId p s') by done.
  rewrite leave_run in Hrun by done.
  destruct (chat_of (world s) chatId) as [c |] eqn:Hfind.
  2: { injection Hrun as _ <-. simpl. rewrite Hquiet, Hfind.
       eexists. split; [done |]. simpl. by rewrite !Hquiet. }
  destruct (find_has_id _ _ _ Hfind) as [Hin Hid].
  rewrite Forall_forall in Hchats. destruct (Hchats c Hin) as [Hnodup Hnonempty].
  cbv zeta in Hrun. destruct (length _ =? 0)%nat eqn:Hzero.
  - injection Hrun as _ <-. simpl. rewrite !Hquiet.
    unfold chat_of, Chat.findOne. simpl. rewrite Hid, find_remove_first_eq by done.
    eexists. split; [done |]. simpl. by rewrite !Hquiet.
  - destruct (negb _) eqn:Hchanged.
    + injection Hrun as _ <-. simpl. rewrite !Hquiet.
      unfold chat_of, Chat.findOne. simpl. rewrite Hid, find_update_first by done.
      unfold chat_of, Chat.findOne in Hfind. rewrite Hfind. simpl.
      rewrite filter_out_absent by (rewrite filter_out_elem_of; tauto).
      rewrite Hzero, Nat.eqb_refl. simpl.
      eexists. split; [done |]. simpl. by rewrite !Hquiet.
    + injection Hrun as _ <-. simpl. rewrite !Hquiet, Hfind. cbv zeta.
      rewrite Hzero, Hchanged.
      eexists. split; [done |]. simpl. by rewrite !Hquiet.
Qed.

End chat_store_more2.

(** ** More on the message entity store *)

Section message_store_more.
Context `{Mongoose}.

Lemma create_inv chat sender content w m w' :
  Message.create chat sender content w = (Ok m, w') →
  trim content ≠ "" ∧
  (String.length (trim content) ≤ 2000)%nat ∧
  existsb (Message.has_id (ObjectId_fresh (generated w))) (messages w) = false ∧
  m = {| msg_id := ObjectId_fresh (generated w); msg_chat := chat; msg_sender := sender;
         msg_content := trim content;
         msg_createdAt := clock w; msg_updatedAt := clock w |} ∧
  w' = set_messages (messages w ++ [m]) (set_generated (S (generated w)) w).
Proof.
  unfold Message.create. case_bool_decide as Hblank; [done |].
  destruct (2000 <? _)%nat eqn:Hlong; [done |].
  destruct (existsb _ _) eqn:Hfresh; [done |].
  intros [= <- <-]. apply Nat.ltb_ge in Hlong. done.
Qed.

(** What a successful [createMessage] did, step by step. *)
Lemma createMessage_inv chatId senderId content s m s' :
  Message.createMessage chatId senderId content s = (Ok m, s') →
  trim content ≠ "" ∧
  isValidObjectId chatId = true ∧
  isValidObjectId senderId = true ∧
  ∃ w1,
    Message.create (ObjectId_of chatId) (ObjectId_of senderId) (trim content) (world s)
      = (Ok m, w1) ∧
    s' = resumed (resumed s w1)
           (snd (Chat.findByIdAndUpdate chatId (msg_id m) (msg_createdAt m)
                   (world (resumed s w1)))).
Proof.
  unfold Message.createMessage. case_bool_decide as Hblank; [done |].
  unfold new_ObjectId, mbind, M_bind, liftR.
  destruct (isValidObjectId chatId) eqn:Hchat; [| done].
  destruct (isValidObjectId senderId); [| done].
  rewrite storage_run.
  destruct (Message.create _ _ _ (world s)) as [[m0 | e] w1] eqn:Hcreate; simpl; [| done].
  rewrite storage_run.
  unfold Chat.findByIdAndUpdate at 1, cast_ObjectId. rewrite Hchat. simpl.
  unfold mret, M_ret. intros [= -> <-].
  repeat split; try done. exists w1. split; [done |].
  unfold Chat.findByIdAndUpdate, cast_ObjectId. by rewrite Hchat.
Qed.

(** X10. A [createMessage] that fails stores nothing: in a run without
    interference that ends in an error, the messages and the chats are as
    they were, so no chat points to a message that was not stored. *)
Theorem createMessage_failure_stores_nothing chatId senderId content s e s' :
  quiet s →
  Message.createMessage chatId senderId content s = (Throw e, s') →
  messages (world s') = messages (world s) ∧ chats (world s') = chats (world s).
Proof.
  intros Hquiet. unfold Message.createMessage.
  case_bool_decide as Hblank; [by intros [= _ <-] |].
  unfold new_ObjectId, mbind, M_bind, liftR.
  destruct (isValidObjectId chatId) eqn:Hchat; [| by intros [= _ <-]].
  destruct (isValidObjectId senderId); [| by intros [= _ <-]].
  rewrite storage_run.
  destruct (Message.create _ _ _ (world s)) as [[m0 | e0] w1] eqn:Hcreate; simpl.
  - rewrite storage_run. unfold Chat.findByIdAndUpdate, cast_ObjectId.
    rewrite Hchat. simpl. done.
  - intros [= _ <-]. simpl. rewrite Hquiet.
    unfold Message.create in Hcreate. repeat case_match; by simplify_eq.
Qed.

(** X11. A message that [createMessage] returns carries the trimmed
    content, which is not empty and at most 2000 characters long, the
    normalised sender and chat ids, and the time of the call as both
    timestamps; in a run without interference it is appended to the
    collection, the messages stored before being left as they were. *)
Theorem createMessage_stores_trimmed chatId senderId content s m s' :
  Message.createMessage chatId senderId content s = (Ok m, s') →
  msg_content m = trim content ∧
  msg_content m ≠ "" ∧
  (String.length (msg_content m) ≤ 2000)%nat ∧
  msg_sender m = ObjectId_of senderId ∧
  msg_chat m = ObjectId_of chatId ∧
  msg_createdAt m = clock (world s) ∧
  msg_updatedAt m = clock (world s) ∧
  (quiet s → messages (world s') = (messages (world s) ++ [m])%list).
Proof.
  intros Hrun.
  apply createMessage_inv in Hrun as (_ & Hchat & _ & w1 & Hcreate & ->).
  apply create_inv in Hcreate as (Hblank & Hlen & _ & -> & ->).
  rewrite trim_idempotent in *. simpl. repeat split; try done.
  intros Hquiet. unfold Chat.findByIdAndUpdate, cast_ObjectId. rewrite Hchat. simpl.
  by rewrite !Hquiet.
Qed.

(** X15. [createMessage] asks nothing of the chat: with content that is
    not blank and at most 2000 characters long once trimmed, well-formed
    chat and sender ids and an unused fresh identifier, it succeeds,
    whether or not a chat is stored under the chat id. *)
Theorem createMessage_succeeds chatId senderId content s :
  trim content ≠ "" →
  (String.length (trim content) ≤ 2000)%nat →
  isValidObjectId chatId = true →
  isValidObjectId senderId = true →
  existsb (Message.has_id (ObjectId_fresh (generated (world s)))) (messages (world s))
    = false →
  ∃ m s',
    Message.createMessage chatId senderId content s = (Ok m, s') ∧
    msg_id m = ObjectId_fresh (generated (world s)).
Proof.
  intros Hblank Hlen Hchat Hsender Hfresh.
  unfold Message.createMessage. rewrite bool_decide_eq_false_2 by done.
  unfold new_ObjectId, mbind, M_bind, liftR. rewrite Hchat, Hsender.
  rewrite storage_run. unfold Message.create at 1 2 3.
  rewrite trim_idempotent, bool_decide_eq_false_2 by done.
  rewrite (proj2 (Nat.ltb_ge _ _)) by done. rewrite Hfresh. simpl.
  rewrite storage_run. unfold Chat.findByIdAndUpdate, cast_ObjectId.
  rewrite Hchat. simpl. by eexists _, _.
Qed.

(** X12. What was written can be read back: after a successful
    [createMessage] in a run without interference, [getMessageById] on
    the id of the returned message, when that id is an identifier in
    normal form, yields the message in populated form. *)
Theorem createMessage_then_getMessageById chatId senderId content s m s' :
  quiet s →
  isValidObjectId (msg_id m) = true →
  ObjectId_of (msg_id m) = msg_id m →
  Message.createMessage chatId senderId content s = (Ok m, s') →
  fst (Message.getMessageById (msg_id m) s') = Ok (Some (Message.populate (world s') m)).
Proof.
  intros Hquiet Hvalid Hnormal Hrun.
  apply createMessage_inv in Hrun as (_ & Hchat & _ & w1 & Hcreate & ->).
  apply create_inv in Hcreate as (_ & _ & Hfresh & Hm & ->).
  unfold Message.getMessageById. rewrite storage_run. unfold cast_ObjectId.
  rewrite Hvalid, Hnormal. simpl.
  unfold Chat.findByIdAndUpdate, cast_ObjectId. rewrite Hchat. simpl.
  rewrite !Hquiet. simpl.
  replace (List.find _ _) with (Some m); [done |].
  assert (msg_id m = ObjectId_fresh (generated (world s))) as Hid by (by rewrite Hm).
  rewrite Hid. clear Hm Hvalid Hnormal.
  induction (messages (world s)) as [| m0 ms IH]; simpl.
  - unfold Message.has_id. by rewrite Hid, bool_decide_eq_true_2.
  - simpl in Hfresh. apply orb_false_elim in Hfresh as [Hm0 Hms].
    rewrite Hm0. by apply IH.
Qed.

End message_store_more.

Section pagination.
Context `{Mongoose}.

#[local] Instance newest_first_total' : Total Message.newest_first.
Proof. intros m1 m2. unfold Message.newest_first. lia. Qed.

#[local] Instance newest_first_trans' : Transitive Message.newest_first.
Proof. intros m1 m2 m3. unfold Message.newest_first. lia. Qed.

(** The page behind a result of [getMessagesForChat]. *)
Lemma getMessagesForChat_inv chatId limit before s page s' :
  Message.getMessagesForChat chatId limit before s = (Ok page, s') →
  s' = resumed s (world s) ∧
  ∃ ms,
    page = Message.populate (world s) <$> ms ∧
    ms = take (Z.to_nat (Z.max 1 (Z.min 200 (default 50 limit))))
           (merge_sort Message.newest_first
              (List.filter (Message.in_chat_before (ObjectId_of chatId) before)
                 (messages (world s)))) ∧
    StronglySorted Message.newest_first ms ∧
    ∀ m, m ∈ ms → Message.in_chat_before (ObjectId_of chatId) before m = true.
Proof.
  unfold Message.getMessagesForChat, new_ObjectId.
  destruct (isValidObjectId chatId); simpl; [| done].
  unfold mbind, M_bind, liftR. rewrite storage_run. simpl.
  intros [= <- <-]. split; [done |]. eexists. split; [done |]. split; [done |].
  set (sorted := merge_sort _ _).
  assert (StronglySorted Message.newest_first sorted) as Hsorted
    by (apply StronglySorted_merge_sort; apply _).
  split.
  - rewrite <- (take_drop (Z.to_nat (Z.max 1 (Z.min 200 (default 50 limit)))) sorted)
      in Hsorted.
    by apply StronglySorted_app_1_l in Hsorted.
  - intros m Hm. apply subseteq_take in Hm. subst sorted.
    rewrite merge_sort_Permutation in Hm.
    by apply list_elem_of_In, filter_In in Hm as [_ Hq].
Qed.

Lemma sorted_last_least (l : list Message) (x y : Message) :
  StronglySorted Message.newest_first l →
  last l = Some x → y ∈ l → msg_createdAt x ≤ msg_createdAt y.
Proof.
  intros Hsorted Hlast Hy. apply last_Some in Hlast as [l' ->].
  apply elem_of_app in Hy as [Hy | Hy].
  - apply (StronglySorted_app_1_elem_of _ _ _ _ _ Hsorted Hy). apply list_elem_of_here.
  - apply list_elem_of_singleton in Hy as ->. lia.
Qed.

(** X14. Pages do not overlap: when a first page is fetched without
    [before] and a second with [before] set to the creation time of the
    last message of the first, every message of the second page is
    strictly older than every message of the first, whatever the two
    limits and whatever happened to the store in between. *)
Theorem pages_do_not_overlap chatId limit1 limit2 s page1 s1 oldest page2 s2 :
  Message.getMessagesForChat chatId limit1 None s = (Ok page1, s1) →
  last page1 = Some oldest →
  Message.getMessagesForChat chatId limit2 (Some (pm_createdAt oldest)) s1
    = (Ok page2, s2) →
  ∀ p1 p2, p1 ∈ page1 → p2 ∈ page2 → pm_createdAt p2 < pm_createdAt p1.
Proof.
  intros Hrun1 Hlast Hrun2 p1 p2 Hp1 Hp2.
  apply getMessagesForChat_inv in Hrun1 as (_ & ms1 & -> & _ & Hsorted1 & _).
  apply getMessagesForChat_inv in Hrun2 as (_ & ms2 & -> & _ & _ & Hbefore).
  apply list_elem_of_fmap in Hp1 as (m1 & -> & Hm1).
  apply list_elem_of_fmap in Hp2 as (m2 & -> & Hm2).
  rewrite fmap_last in Hlast.
  destruct (last ms1) as [m0 |] eqn:Hlast1; [| done]. injection Hlast as <-.
  pose proof (sorted_last_least _ _ _ Hsorted1 Hlast1 Hm1) as Hleast.
  specialize (Hbefore m2 Hm2). unfold Message.in_chat_before in Hbefore.
  apply andb_prop in Hbefore as [_ Hlt]. simpl in *. lia.
Qed.

(** X13. A new message comes first: if, before a successful
    [createMessage] run without interference, every stored message of the
    chat was created strictly before the time of the call, then
    [getMessagesForChat] without [before] returns the new message, in
    populated form, at the head of the page, whatever the limit. *)
Theorem createMessage_then_newest chatId senderId content s m s' limit :
  quiet s →
  (∀ m0, m0 ∈ messages (world s) → msg_chat m0 = ObjectId_of chatId →
         msg_createdAt m0 < clock (world s)) →
  Message.createMessage chatId senderId content s = (Ok m, s') →
  ∃ rest,
    fst (Message.getMessagesForChat chatId limit None s')
      = Ok (Message.populate (world s') m :: rest).
Proof.
  intros Hquiet Holder Hrun.
  apply createMessage_inv in Hrun as (_ & Hchat & _ & w1 & Hcreate & ->).
  apply create_inv in Hcreate as (_ & _ & _ & Hm & ->).
  unfold Message.getMessagesForChat, new_ObjectId. rewrite Hchat. cbn [negb].
  unfold mbind, M_bind, liftR. rewrite storage_run. simpl.
  unfold Chat.findByIdAndUpdate, cast_ObjectId. rewrite Hchat. simpl.
  rewrite !Hquiet. simpl.
  set (matching := List.filter _ (messages (world s) ++ [m])).
  set (sorted := merge_sort Message.newest_first matching).
  assert (sorted ≡ₚ matching) as Hperm by apply merge_sort_Permutation.
  assert (StronglySorted Message.newest_first sorted) as Hsorted
    by (apply StronglySorted_merge_sort; apply _).
  assert (msg_chat m = ObjectId_of chatId ∧ msg_createdAt m = clock (world s))
    as [Hmchat Hmtime] by (by rewrite Hm).
  assert (∀ x, x ∈ matching → x = m ∨ msg_createdAt x < msg_createdAt m) as Hmatching.
  { intros x Hx. subst matching. apply list_elem_of_In, filter_In in Hx as [Hx Hq].
    apply in_app_or in Hx as [Hx | [-> | []]]; [right | by left].
    unfold Message.in_chat_before in Hq. apply andb_prop in Hq as [Hq _].
    apply bool_decide_eq_true_1 in Hq. rewrite Hmtime.
    apply Holder; [by apply list_elem_of_In | done]. }
  assert (m ∈ sorted) as Hin.
  { rewrite Hperm. subst matching. apply list_elem_of_In, filter_In. split.
    - apply in_or_app. right. by left.
    - unfold Message.in_chat_before. by rewrite bool_decide_eq_true_2. }
  clearbody sorted. clear Hm.
  destruct sorted as [| h t]; [by apply elem_of_nil in Hin |].
  assert (h = m) as ->.
  { destruct (Hmatching h) as [-> | Hlt]; [rewrite <- Hperm; apply list_elem_of_here | done |].
    apply elem_of_cons in Hin as [-> | Hin]; [done |].
    apply StronglySorted_cons in Hsorted as [Hhead _].
    rewrite Forall_forall in Hhead. specialize (Hhead m Hin).
    unfold Message.newest_first in Hhead. lia. }
  destruct (Z.to_nat (Z.max 1 (Z.min 200 (default 50 limit)))) as [| n] eqn:Hn; [lia |].
  simpl. by eexists.
Qed.

End pagination.

(** ** More on the socket service *)

(** One step of a handler: a call whose run is known. *)
Ltac run_step Hrun := unfold mbind at 1, M_bind at 1; rewrite Hrun.

Section socket_service_more.
Context `{Mongoose}.

Lemma members_adapter_add sid room w r :
  SocketService.members (SocketService.adapter_add sid room w) r =
    if bool_decide (r = room) then {[ sid ]} ∪ SocketService.members w r
    else SocketService.members w r.
Proof.
  unfold SocketService.adapter_add, SocketService.members at 1. simpl.
  case_bool_decide as Hr.
  - subst. by rewrite lookup_insert_eq.
  - by rewrite lookup_insert_ne.
Qed.

Lemma personal_is_not_chat_room (u x : string) : "user:" +:+ u ≠ "chat:" +:+ x.
Proof. discriminate. Qed.

(** X21. [leave_room] cannot touch a personal channel: whatever chat id
    the client sends, the handler leaves the subscribers of every room
    ["user:<id>"] as they are, those of the connection itself included. *)
Theorem leaveRoom_keeps_personal_channels socket data s (u : string) :
  SocketService.members
    (world (snd (SocketService.handleLeaveRoom socket data s))) ("user:" +:+ u) =
  SocketService.members (world s) ("user:" +:+ u).
Proof.
  rewrite handleLeaveRoom_run. simpl. rewrite members_adapter_del.
  rewrite bool_decide_eq_false_2; [done |]. apply personal_is_not_chat_room.
Qed.

(** X22. Joining and then leaving undoes the subscription: in a run
    without interference, after a granted [join_room] followed by a
    [leave_room] on the same chat id the connection is not in the room of
    the chat, everybody else's subscriptions, in that room or any other,
    are as before, and the two handlers have answered [joined_room] and
    [left_room]. *)
Theorem join_then_leave socket chatId u c s :
  quiet s →
  isValidObjectId chatId = true →
  user socket = Some u →
  Chat.findOne (Chat.for_user (ObjectId_of chatId) (Some (user_id u))) (world s) = Some c →
  let s1 := snd (SocketService.handleJoinRoom socket {| jr_chatId := chatId |} s) in
  let s2 := snd (SocketService.handleLeaveRoom socket {| jr_chatId := chatId |} s1) in
  (∀ room,
     SocketService.members (world s2) room =
       if bool_decide (room = "chat:" +:+ chatId)
       then SocketService.members (world s) room ∖ {[ socket_id socket ]}
       else SocketService.members (world s) room) ∧
  event <$> emitted s s2 =
    [joined_room chatId (Chat.populate (world s) c); left_room chatId].
Proof.
  intros Hquiet Hvalid Hu Hfind. cbv zeta.
  rewrite handleLeaveRoom_run.
  unfold SocketService.handleJoinRoom; simpl. rewrite Hvalid; simpl.
  unfold try_catch, mbind, M_bind. rewrite getForUser_run by done.
  rewrite Hu; simpl. rewrite Hfind; simpl. rewrite Hquiet. split.
  - intros room. rewrite members_adapter_del, members_adapter_add.
    case_bool_decide; [| done].
    rewrite difference_union_distr_l_L, difference_diag_L. by rewrite (left_id_L ∅ (∪)).
  - unfold emitted; simpl. rewrite <- app_assoc. by rewrite drop_app_length.
Qed.

(** X17. Membership is checked on every send: a [send_message] with a
    well-formed chat id and content that is not blank, from a connection
    whose identity is a participant of no stored chat with that id, ends
    with the single error "Chat not found or access denied" to the
    sender, in the state in which the handler resumed after the lookup:
    nothing is written and nothing is broadcast. *)
Theorem sendMessage_denied socket chatId content u s :
  isValidObjectId chatId = true →
  trim content ≠ "" →
  user socket = Some u →
  (∀ c, c ∈ chats (world s) → chat_id c = ObjectId_of chatId →
        user_id u ∉ participants c) →
  SocketService.handleSendMessage socket
      {| sm_chatId := chatId; sm_content := content |} s =
    (Ok tt,
     with_emission (resumed s (world s))
       (error_to socket "Chat not found or access denied")).
Proof.
  intros Hvalid Hcontent Hu Hdenied.
  unfold SocketService.handleSendMessage; simpl. rewrite Hvalid; simpl.
  assert (content ≠ "") as Hne by (intros ->; by apply Hcontent).
  rewrite bool_decide_eq_false_2, trimmed_empty, bool_decide_eq_false_2 by done; simpl.
  unfold try_catch, mbind, M_bind. rewrite getForUser_run by done.
  replace (Chat.findOne _ _) with (@None Chat); [done |].
  symmetry. apply find_none_iff. intros c Hc.
  unfold Chat.for_user, Chat.has_id. rewrite Hu; simpl.
  case_bool_decide as Hid; [| done]. simpl.
  apply bool_decide_eq_false_2. by apply Hdenied.
Qed.

(** X19. A failed write is reported to the sender and to nobody else: when
    the lookup of a send finds the chat and [createMessage] then throws,
    the handler ends with one [error] event, carrying the message of that
    error, to the sending connection, and broadcasts nothing. *)
Theorem sendMessage_write_failure socket chatId content s chat s1 e s2 :
  isValidObjectId chatId = true →
  trim content ≠ "" →
  Chat.getForUser chatId (IdObject <$> (user_id <$> user socket)) s = (Ok (Some chat), s1) →
  Message.createMessage chatId (SocketService.String_user_id socket) (trim content) s1
    = (Throw e, s2) →
  ∃ s',
    SocketService.handleSendMessage socket
      {| sm_chatId := chatId; sm_content := content |} s = (Ok tt, s') ∧
    emitted s s' = [error_to socket e] ∧
    world s' = world s2.
Proof.
  intros Hvalid Hcontent Hlookup Hcreate.
  assert (outbox s2 = outbox s) as Hout.
  { rewrite (silent_createMessage _ _ _ _ _ _ Hcreate).
    apply (silent_getForUser _ _ _ _ _ Hlookup). }
  unfold SocketService.handleSendMessage; simpl. rewrite Hvalid; simpl.
  assert (content ≠ "") as Hne by (intros ->; by apply Hcontent).
  rewrite bool_decide_eq_false_2, trimmed_empty, bool_decide_eq_false_2 by done; simpl.
  unfold try_catch. run_step Hlookup. run_step Hcreate.
  eexists. split; [reflexivity |]. simpl. split; [| done].
  unfold emitted; simpl. rewrite Hout. by rewrite drop_app_length.
Qed.

(** X18. The fan-out sends nothing beyond what it must: in a send whose
    lookup, write and re-fetch succeed, the events emitted are one
    [new_message] to the room of the chat, first, and [chat_updated]
    events to personal channels, each to a participant of the chat who is
    not the sender and not in the presence snapshot.  The sender, the
    participants present in the room and users outside the chat get no
    [chat_updated]. *)
Theorem sendMessage_fanout_exact
    socket chatId content s chat s1 message s2 pm s3 :
  isValidObjectId chatId = true →
  trim content ≠ "" →
  Chat.getForUser chatId (IdObject <$> (user_id <$> user socket)) s = (Ok (Some chat), s1) →
  Message.createMessage chatId (SocketService.String_user_id socket) (trim content) s1
    = (Ok message, s2) →
  Message.getMessageById (msg_id message) s2 = (Ok (Some pm), s3) →
  ∃ s' updates,
    SocketService.handleSendMessage socket
      {| sm_chatId := chatId; sm_content := content |} s = (Ok tt, s') ∧
    emitted s s' =
      to_room (world s') ("chat:" +:+ chatId) (new_message chatId pm) :: updates ∧
    ∀ e, e ∈ updates →
      ∃ p,
        e = to_room (world s') ("user:" +:+ p) (chat_updated chatId pm) ∧
        p ∈ participants (pc_chat chat) ∧
        p ≠ SocketService.String_user_id socket ∧
        p ∉ presenceOf (world s') chatId.
Proof.
  intros Hvalid Hcontent Hlookup Hcreate Hfetch.
  eexists _, _. split; [by eapply handleSendMessage_run |]. simpl.
  split; [unfold emitted; simpl; by rewrite drop_app_length |].
  intros e He. unfold notifications in He.
  apply list_elem_of_fmap in He as (p & -> & Hp).
  apply list_elem_of_In, filter_In in Hp as [Hp Habsent].
  apply filter_In in Hp as [Hp Hother]. apply list_elem_of_In in Hp.
  apply negb_true_iff, bool_decide_eq_false_1 in Habsent.
  apply negb_true_iff, bool_decide_eq_false_1 in Hother.
  by exists p.
Qed.

End socket_service_more.

(** ** A send from end to end *)

Section send_end_to_end.
Context `{Mongoose}.

Lemma find_appended id (ms : list Message) (m : Message) :
  existsb (Message.has_id id) ms = false →
  msg_id m = id →
  List.find (Message.has_id id) (ms ++ [m]) = Some m.
Proof.
  intros Hfresh Hid. induction ms as [| m0 ms IH]; simpl.
  - unfold Message.has_id. by rewrite bool_decide_eq_true_2.
  - simpl in Hfresh. apply orb_false_elim in Hfresh as [Hm0 Hms].
    rewrite Hm0. by apply IH.
Qed.

(** The run of a [createMessage] that meets its preconditions, without
    interference. *)
Lemma createMessage_run chatId senderId content s :
  quiet s →
  trim content ≠ "" →
  (String.length (trim content) ≤ 2000)%nat →
  isValidObjectId chatId = true →
  isValidObjectId senderId = true →
  existsb (Message.has_id (ObjectId_fresh (generated (world s)))) (messages (world s))
    = false →
  let m := {| msg_id := ObjectId_fresh (generated (world s));
              msg_chat := ObjectId_of chatId; msg_sender := ObjectId_of senderId;
              msg_content := trim content;
              msg_createdAt := clock (world s); msg_updatedAt := clock (world s) |} in
  ∃ s',
    Message.createMessage chatId senderId content s = (Ok m, s') ∧
    quiet s' ∧ outbox s' = outbox s ∧
    messages (world s') = (messages (world s) ++ [m])%list ∧
    users (world s') = users (world s) ∧
    rooms (world s') = rooms (world s) ∧
    sockets (world s') = sockets (world s) ∧
    chats (world s') =
      chats (snd (Chat.findByIdAndUpdate chatId (msg_id m) (msg_createdAt m) (world s))).
Proof.
  intros Hquiet Hblank Hlen Hchat Hsender Hfresh. cbv zeta.
  unfold Message.createMessage. rewrite bool_decide_eq_false_2 by done.
  unfold new_ObjectId, mbind, M_bind, liftR. rewrite Hchat, Hsender.
  rewrite storage_run. unfold Message.create at 1 2 3.
  rewrite trim_idempotent, bool_decide_eq_false_2 by done.
  rewrite (proj2 (Nat.ltb_ge _ _)) by done. rewrite Hfresh. simpl.
  rewrite storage_run. unfold Chat.findByIdAndUpdate, cast_ObjectId.
  rewrite Hchat. simpl. rewrite !Hquiet. simpl.
  eexists. split; [reflexivity |]. simpl. rewrite !Hquiet. by repeat split.
Qed.

(** X20. A send that meets its preconditions goes through: in a run
    without interference, a [send_message] from a connection whose
    identity is a participant of the chat, with content that is not blank
    and at most 2000 characters long once trimmed, stores one new message
    with the trimmed content, the sender's id and the chat's id, and then
    broadcasts it: the [new_message] event carries exactly the populated
    form of the message that is now stored, followed by the
    [chat_updated] notifications.  Subscriptions are left as they
    were. *)
Theorem sendMessage_delivers socket u chatId content c s :
  quiet s →
  isValidObjectId chatId = true →
  user socket = Some u →
  isValidObjectId (user_id u) = true →
  trim content ≠ "" →
  (String.length (trim content) ≤ 2000)%nat →
  Chat.findOne (Chat.for_user (ObjectId_of chatId) (Some (user_id u))) (world s) = Some c →
  existsb (Message.has_id (ObjectId_fresh (generated (world s)))) (messages (world s))
    = false →
  isValidObjectId (ObjectId_fresh (generated (world s))) = true →
  ObjectId_of (ObjectId_fresh (generated (world s))) = ObjectId_fresh (generated (world s)) →
  let m := {| msg_id := ObjectId_fresh (generated (world s));
              msg_chat := ObjectId_of chatId; msg_sender := ObjectId_of (user_id u);
              msg_content := trim content;
              msg_createdAt := clock (world s); msg_updatedAt := clock (world s) |} in
  ∃ s',
    SocketService.handleSendMessage socket
      {| sm_chatId := chatId; sm_content := content |} s = (Ok tt, s') ∧
    messages (world s') = (messages (world s) ++ [m])%list ∧
    rooms (world s') = rooms (world s) ∧
    emitted s s' =
      to_room (world s') ("chat:" +:+ chatId)
        (new_message chatId (Message.populate (world s') m)) ::
      notifications (world s') socket chatId (Chat.populate (world s) c)
        (Message.populate (world s') m) (presenceOf (world s') chatId).
Proof.
  intros Hquiet Hvalid Hu Hsender Hblank Hlen Hfind Hfresh Hfvalid Hfnormal. cbv zeta.
  pose proof (getForUser_run chatId (user_id <$> user socket) s Hvalid) as Hlookup.
  rewrite Hu in Hlookup. simpl in Hlookup. rewrite Hfind in Hlookup. simpl in Hlookup.
  assert (quiet (resumed s (world s))) as Hquiet1 by (intros n w; apply Hquiet).
  assert (world (resumed s (world s)) = world s) as Hw1 by (simpl; apply Hquiet).
  destruct (createMessage_run chatId (user_id u) (trim content) (resumed s (world s)))
    as (s2 & Hcreate & Hquiet2 & Hout2 & Hmessages & Husers & Hrooms & Hsockets & Hchats);
    rewrite ?trim_idempotent, ?Hw1; try done.
  rewrite trim_idempotent, Hw1 in Hcreate, Hmessages.
  set (m := {| msg_id := ObjectId_fresh (generated (world s)) |}) in *.
  assert (Message.getMessageById (msg_id m) s2 =
            (Ok (Some (Message.populate (world s2) m)), resumed s2 (world s2))) as Hfetch.
  { unfold Message.getMessageById. rewrite storage_run. unfold cast_ObjectId.
    simpl. rewrite Hfvalid, Hfnormal. simpl. rewrite Hmessages.
    by rewrite find_appended. }
  assert (world (resumed s2 (world s2)) = world s2) as Hw3 by (simpl; apply Hquiet2).
  eexists. split.
  { apply (handleSendMessage_run socket chatId content s
             (Chat.populate (world s) c) (resumed s (world s)) m s2
             (Some (Message.populate (world s2) m)) (resumed s2 (world s2)));
      try done.
    - rewrite Hu. exact Hlookup.
    - unfold SocketService.String_user_id. rewrite Hu. exact Hcreate. }
  cbv beta iota. cbn [world outbox]. rewrite Hw3.
  split; [done |]. split; [by rewrite Hrooms, Hw1 |].
  unfold emitted. cbn [outbox]. by rewrite drop_app_length.
Qed.

End send_end_to_end.

(** ** Connection authentication *)

Section authentication.
Context `{Mongoose} `{JsonWebToken}.

Lemma falsy_false (o : option string) :
  Authenticator.falsy o = false ↔ ∃ t, o = Some t ∧ t ≠ "".
Proof.
  split.
  - destruct o as [[| c r] |]; try done. intros _. by exists (String c r).
  - intros (t & -> & Ht). by destruct t.
Qed.

Lemma findById_run _id s :
  UserModel.findById _id s =
    (Ok (List.find (λ u, bool_decide (user_id u = _id)) (users (world s))),
     resumed s (world s)).
Proof. unfold UserModel.findById, try_catch. by rewrite storage_run. Qed.

(** Every run of the middleware: either it stops before the store is
    consulted, or the token was verified and the user looked up. *)
Lemma authenticate_inv secret sid h s r s' :
  Authenticator.authenticate secret sid h s = (r, s') →
  (s' = s ∧ ∃ e, r = Throw e) ∨
  (∃ token key decoded subject,
     Authenticator.token_of h = Some token ∧ token ≠ "" ∧
     secret = Some key ∧ key ≠ "" ∧
     jwt_verify token key = Ok decoded ∧
     Authenticator.subject_of decoded = Some subject ∧ subject ≠ "" ∧
     isValidObjectId subject = true ∧
     s' = resumed s (world s) ∧
     match List.find (λ u, bool_decide (user_id u = ObjectId_of subject))
             (users (world s)) with
     | Some u => r = Ok {| socket_id := sid; user := Some u |}
     | None => r = Throw "User not found"
     end).
Proof.
  unfold Authenticator.authenticate, try_catch.
  destruct (Authenticator.falsy (Authenticator.token_of h)) eqn:Htoken.
  { intros [= <- <-]. left. eauto. }
  destruct (Authenticator.falsy secret) eqn:Hsecret.
  { intros [= <- <-]. left. eauto. }
  apply falsy_false in Htoken as (token & Htoken & Htoken').
  apply falsy_false in Hsecret as (key & -> & Hkey).
  rewrite Htoken. simpl. unfold mbind at 1, M_bind at 1, liftR at 1.
  destruct (jwt_verify token key) as [decoded | e] eqn:Hverify.
  2: { intros [= <- <-]. left. eauto. }
  destruct (Authenticator.falsy (Authenticator.subject_of decoded)) eqn:Hsubject.
  { intros [= <- <-]. left. eauto. }
  apply falsy_false in Hsubject as (subject & Hsubject & Hsubject').
  rewrite Hsubject. simpl. unfold mbind at 1, M_bind at 1, liftR at 1, new_ObjectId.
  destruct (isValidObjectId subject) eqn:Hvalid.
  2: { intros [= <- <-]. left. eauto. }
  unfold mbind, M_bind. rewrite findById_run.
  intros Hrun. right. exists token, key, decoded, subject.
  repeat (split; [done |]).
  destruct (List.find _ _) as [u |]; injection Hrun as <- <-; done.
Qed.

(** X23. The middleware lets a connection in only on a verified
    credential of a stored user: when it accepts, the handshake carried a
    token that is not empty, the secret is configured, [jwt.verify]
    accepted the token under that secret, the subject of its claims
    ([id], else [userId]) is a well-formed identifier, and the identity
    bound to the connection is a stored user with that identifier. *)
Theorem authenticate_sound secret sid h s socket s' :
  Authenticator.authenticate secret sid h s = (Ok socket, s') →
  ∃ token key decoded subject u,
    Authenticator.token_of h = Some token ∧ token ≠ "" ∧
    secret = Some key ∧ key ≠ "" ∧
    jwt_verify token key = Ok decoded ∧
    Authenticator.subject_of decoded = Some subject ∧
    isValidObjectId subject = true ∧
    u ∈ users (world s) ∧
    user_id u = ObjectId_of subject ∧
    socket = {| socket_id := sid; user := Some u |}.
Proof.
  intros Hrun. apply authenticate_inv in Hrun as [[_ [e He]] | Hrun]; [done |].
  destruct Hrun as (token & key & decoded & subject & Htoken & ? & -> & ? & Hverify
                    & Hsubject & _ & Hvalid & _ & Hfound).
  destruct (List.find _ _) as [u |] eqn:Hfind; [| done].
  injection Hfound as ->. apply find_some in Hfind as [Hin Hid].
  apply list_elem_of_In in Hin. apply bool_decide_eq_true_1 in Hid.
  exists token, key, decoded, subject, u. by repeat split.
Qed.

(** X25. The middleware reads the user store only for a verified token
    and never writes: a run either ends, rejected, in the state it
    started in, or the token was verified and the run ends in the state
    in which it resumed after the one lookup; either way it emits
    nothing. *)
Theorem authenticate_consults_store_only_when_verified secret sid h s r s' :
  Authenticator.authenticate secret sid h s = (r, s') →
  outbox s' = outbox s ∧
  ((s' = s ∧ ∃ e, r = Throw e) ∨
   (s' = resumed s (world s) ∧
    ∃ token key decoded,
      Authenticator.token_of h = Some token ∧ secret = Some key ∧
      jwt_verify token key = Ok decoded)).
Proof.
  intros Hrun. apply authenticate_inv in Hrun as [[-> He] | Hrun].
  - split; [done |]. by left.
  - destruct Hrun as (token & key & decoded & subject & Htoken & _ & -> & _ & Hverify
                      & _ & _ & _ & -> & _).
    split; [done |]. right. split; [done |]. by exists token, key, decoded.
Qed.

Lemma split_space_word (w : string) : no_space w = true → Authenticator.split_space w = [w].
Proof.
  induction w as [| c r IH]; simpl; [done |].
  intros [Hc Hr]%andb_prop. apply negb_true_iff in Hc. rewrite Hc, IH by done. done.
Qed.

Lemma split_space_second (scheme rest : string) :
  no_space scheme = true →
  Authenticator.split_space (scheme +:+ " " +:+ rest) =
    scheme :: Authenticator.split_space rest.
Proof.
  induction scheme as [| c r IH]; simpl; [done |].
  intros [Hc Hr]%andb_prop. apply negb_true_iff in Hc. rewrite Hc.
  change (String.append r (String.append " " rest)) with (r +:+ " " +:+ rest).
  by rewrite IH.
Qed.

(** X24. The two credential carriers: a string in [auth.token] is the
    token whatever the [Authorization] header says; without it, a header
    made of a scheme, one space and a credential, both free of spaces,
    gives the same run as that credential in [auth.token]. *)
Theorem authenticate_credential_carriers secret sid token scheme header s :
  Authenticator.authenticate secret sid
    {| auth_token := Some token; authorization := header |} s =
  Authenticator.authenticate secret sid
    {| auth_token := Some token; authorization := None |} s ∧
  (no_space scheme = true → no_space token = true →
   Authenticator.authenticate secret sid
     {| auth_token := None; authorization := Some (scheme +:+ " " +:+ token) |} s =
   Authenticator.authenticate secret sid
     {| auth_token := Some token; authorization := None |} s).
Proof.
  split; [done |]. intros Hscheme Htoken.
  unfold Authenticator.authenticate, Authenticator.token_of, Authenticator.headerToken.
  simpl. by rewrite split_space_second, split_space_word.
Qed.

(** X26. A connection that is let in is subscribed to the personal
    channel of its identity: after the middleware and the connection
    handler, the socket is among the subscribers of the room
    ["user:<id>"] of the stored user bound to it, and nothing has been
    emitted. *)
Theorem connect_subscribes secret sid h s socket s' :
  Authenticator.connect secret sid h s = (Ok socket, s') →
  ∃ u,
    socket = {| socket_id := sid; user := Some u |} ∧
    u ∈ users (world s) ∧
    sid ∈ SocketService.members (world s') ("user:" +:+ user_id u) ∧
    outbox s' = outbox s.
Proof.
  unfold Authenticator.connect. unfold mbind at 1, M_bind at 1.
  destruct (Authenticator.authenticate secret sid h s) as [[sock | e] s1] eqn:Hauth;
    [| done].
  apply authenticate_inv in Hauth as [[_ [e He]] | Hauth]; [done |].
  destruct Hauth as (token & key & decoded & subject & _ & _ & _ & _ & _
                     & _ & _ & _ & -> & Hfound).
  destruct (List.find _ _) as [u |] eqn:Hfind; [| done].
  injection Hfound as ->. apply find_some in Hfind as [Hin _].
  apply list_elem_of_In in Hin.
  unfold SocketService.handleConnection. simpl.
  intros [= <- <-]. exists u. split; [done |]. split; [done |]. split; [| done].
  simpl. rewrite members_adapter_add, bool_decide_eq_true_2 by done.
  apply elem_of_union. left. by apply elem_of_singleton.
Qed.

End authentication.

(** ** The REST controller *)

Section rest_controller.
Context `{Mongoose} `{DateParser}.

Lemma silent_try_catch {A} (m : M A) (h : string → M A) :
  silent m → (∀ e, silent (h e)) → silent (try_catch m h).
Proof.
  intros Hm Hh s r s'. unfold try_catch.
  destruct (m s) as [[a | e] s1] eqn:Hrun.
  - intros [= _ <-]. eauto.
  - intros Hh'. rewrite (Hh _ _ _ _ Hh'). eauto.
Qed.

Create HintDb outbox.
#[local] Hint Resolve silent_storage silent_ret silent_throw silent_liftR silent_peek
  silent_bind silent_try_catch silent_getForUser silent_createMessage
  silent_getMessageById : outbox.

Lemma silent_json st b : silent (ChatController.json st b).
Proof. unfold ChatController.json. auto with outbox. Qed.

#[local] Hint Resolve silent_json : outbox.

Lemma silent_createPair a b name : silent (Chat.createPair a b name).
Proof.
  unfold Chat.createPair. repeat case_match; auto with outbox.
  apply silent_bind; [auto with outbox |]. intros ps. case_match; auto with outbox.
Qed.

Lemma silent_findDirectPair a b : silent (Chat.findDirectPair a b).
Proof. unfold Chat.findDirectPair. repeat case_match; auto with outbox. Qed.

Lemma silent_getMessagesForChat chatId limit before :
  silent (Message.getMessagesForChat chatId limit before).
Proof. unfold Message.getMessagesForChat. case_match; auto with outbox. Qed.

(** X29. The REST endpoints never emit a socket event: whatever the
    request and its outcome, [listChats], [getChat], [createChat],
    [getMessages] and [sendMessage] leave the outbox as it is.  A message
    posted through [sendMessage] is therefore stored without any
    [new_message] or [chat_updated] being sent. *)
Theorem rest_endpoints_emit_nothing req :
  silent (ChatController.listChats req) ∧
  silent (ChatController.getChat req) ∧
  silent (ChatController.createChat req) ∧
  silent (ChatController.getMessages req) ∧
  silent (ChatController.sendMessage req).
Proof.
  unfold ChatController.listChats, ChatController.getChat, ChatController.createChat,
    ChatController.getMessages, ChatController.sendMessage, Chat.listForUser.
  cbv zeta.
  repeat split;
    repeat first
      [ apply silent_json | apply silent_storage | apply silent_liftR
      | apply silent_getForUser | apply silent_findDirectPair | apply silent_createPair
      | apply silent_getMessagesForChat | apply silent_createMessage
      | apply silent_getMessageById
      | apply silent_try_catch | apply silent_bind | case_match
      | lazymatch goal with |- ∀ _, _ => intro end ].
Qed.

Lemma createPair_failure a b name s e s' :
  quiet s →
  Chat.createPair a b name s = (Throw e, s') →
  chats (world s') = chats (world s).
Proof.
  intros Hquiet. unfold Chat.createPair.
  destruct a as [a |], b as [b |]; try by intros [= _ <-].
  unfold mbind, M_bind, liftR.
  destruct (Chat.new_ObjectIds _) as [ps | e0]; [| by intros [= _ <-]].
  destruct (length ps <? 2)%nat; [by intros [= _ <-] |].
  rewrite storage_run. unfold Chat.create.
  destruct (existsb _ _); [| done]. intros [= _ <-]. simpl. by rewrite Hquiet.
Qed.

Lemma find_none_filter {A} (q : A → bool) (l : list A) :
  List.find q l = None → List.filter q l = [].
Proof.
  induction l as [| x l IH]; simpl; [done |].
  destruct (q x); [done | apply IH].
Qed.

(** [findOne] returns the first of the documents that match. *)
Lemma find_head_filter {A} (q : A → bool) (l : list A) :
  List.find q l = head (List.filter q l).
Proof.
  induction l as [| x l IH]; simpl; [done |].
  destruct (q x); [done | apply IH].
Qed.

(** [createPair] succeeds for two different well-formed ids when the
    fresh id is not in use. *)
Lemma createPair_succeeds a b name s :
  a ≠ b →
  isValidObjectId a = true →
  isValidObjectId b = true →
  existsb (Chat.has_id (ObjectId_fresh (generated (world s)))) (chats (world s)) = false →
  ∃ c s', Chat.createPair (Some a) (Some b) name s = (Ok c, s').
Proof.
  intros Hab Ha Hb Hfresh. unfold Chat.createPair, Chat.dedup.
  rewrite bool_decide_eq_false_2 by done.
  unfold mbind, M_bind, liftR. simpl. unfold new_ObjectId. rewrite Ha, Hb. simpl.
  rewrite storage_run. unfold Chat.create. rewrite Hfresh. by eexists _, _.
Qed.

(** X27. [createChat] looks before it creates.  In a run without
    interference, for a caller id and a peer id in normal form that
    name different users:

    - a store that holds at most one direct chat of the two still holds
      at most one afterwards;
    - when a direct chat of the two is stored and the peer id is a
      well-formed identifier, the answer is 200 with the first such chat;
      when none is stored, the ids are well formed and the fresh id is
      not in use, the answer is 201;
    - an answer of 200 carries a stored chat whose participants are
      exactly the two, and changes nothing;
    - an answer of 201 is given only when there was none: then one chat,
      of the caller and the peer, is appended;
    - no other answer changes the chats. *)
Theorem createChat_keeps_pair_unique req u peerId s resp s' :
  quiet s →
  req_user req = Some u →
  body_peerId req = Some peerId →
  ObjectId_of (user_id u) = user_id u →
  ObjectId_of (ObjectId_of peerId) = ObjectId_of peerId →
  user_id u ≠ ObjectId_of peerId →
  (length (direct_chats (user_id u) (ObjectId_of peerId) (world s)) ≤ 1)%nat →
  ChatController.createChat req s = (Ok resp, s') →
  (length (direct_chats (user_id u) (ObjectId_of peerId) (world s')) ≤ 1)%nat ∧
  (peerId ≠ "" → isValidObjectId peerId = true →
     match direct_chats (user_id u) (ObjectId_of peerId) (world s) with
     | c :: _ => resp = {| status := 200; body := ChatJson c |}
     | [] =>
         isValidObjectId (user_id u) = true →
         isValidObjectId (ObjectId_of peerId) = true →
         existsb (Chat.has_id (ObjectId_fresh (generated (world s)))) (chats (world s))
           = false →
         status resp = 201%nat
     end) ∧
  (status resp = 200%nat →
     ∃ c, body resp = ChatJson c ∧
          c ∈ chats (world s) ∧
          (participants c = [user_id u; ObjectId_of peerId] ∨
           participants c = [ObjectId_of peerId; user_id u]) ∧
          head (direct_chats (user_id u) (ObjectId_of peerId) (world s)) = Some c ∧
          chats (world s') = chats (world s)) ∧
  (status resp = 201%nat →
     ∃ c, body resp = ChatJson c ∧
          participants c = [user_id u; ObjectId_of peerId] ∧
          direct_chats (user_id u) (ObjectId_of peerId) (world s) = [] ∧
          chats (world s') = (chats (world s) ++ [c])%list) ∧
  (status resp ≠ 201%nat → chats (world s') = chats (world s)).
Proof.
  intros Hquiet Hu Hpeer Ha Hb Hother Hunique.
  unfold ChatController.createChat, try_catch. rewrite Hu, Hpeer. cbv zeta.
  destruct (Authenticator.falsy (Some peerId) || negb (isValidObjectId (default "" (Some peerId))))
    eqn:Hbad.
  { intros [= <- <-]. simpl. split; [done |]. split; [| repeat split; done].
    intros Hfilled Hvalid. exfalso.
    apply orb_true_iff in Hbad as [Hfalsy | Hinvalid].
    - simpl in Hfalsy. by destruct peerId.
    - simpl in Hinvalid. by rewrite Hvalid in Hinvalid. }
  apply orb_false_elim in Hbad as [_ Hvalid]. simpl in Hvalid.
  apply negb_false_iff in Hvalid.
  case_bool_decide as Hself.
  { exfalso. simpl in Hself. apply Hother. by rewrite Hself, Ha. }
  change (default "" (Some peerId)) with peerId in *. unfold new_ObjectId. rewrite Hvalid.
  unfold mbind at 1, M_bind at 1, liftR at 1.
  unfold mbind at 1, M_bind at 1, Chat.findDirectPair. rewrite storage_run.
  cbn [fst snd].
  pose proof (find_head_filter (Chat.direct_pair (user_id u) (ObjectId_of peerId))
                (chats (world s))) as Hhead.
  fold (direct_chats (user_id u) (ObjectId_of peerId) (world s)) in Hhead.
  unfold Chat.findOne.
  destruct (List.find _ (chats (world s))) as [existing |] eqn:Hfind.
  - intros [= <- <-]. simpl. rewrite Hquiet.
    split; [done |]. split; [| split; [| split; [done | done]]].
    + intros _ _. destruct (direct_chats _ _ _) as [| c0 l]; [done |].
      simpl in Hhead. by injection Hhead as ->.
    + intros _. exists existing. split; [done |].
      apply find_some in Hfind as [Hin Hpair].
      split; [by apply list_elem_of_In |].
      split; [by apply direct_pair_participants |]. done.
  - unfold mbind at 1, M_bind at 1, liftR at 1.
    unfold mbind at 1, M_bind at 1.
    assert (direct_chats (user_id u) (ObjectId_of peerId) (world s) = []) as Hnone
      by (by apply find_none_filter).
    match goal with
    | |- context [Chat.createPair ?a ?b ?n ?st] =>
        destruct (Chat.createPair a b n st) as [[c | e] s1] eqn:Hcreate
    end.
    + intros [= <- <-]. simpl.
      apply createPair_run in Hcreate as (Hab & _ & _ & Hcreated & _ & ->).
      simpl in *. rewrite !Hquiet in *. simpl.
      assert (participants c = [user_id u; ObjectId_of peerId]) as Hps.
      { unfold Chat.create in Hcreated. rewrite Ha, Hb in Hcreated.
        destruct (existsb _ _); [done |]. by injection Hcreated as <- _. }
      assert (Chat.direct_pair (user_id u) (ObjectId_of peerId) c = true) as Hpair
        by (apply direct_pair_participants; auto).
      split.
      { unfold direct_chats in *. simpl. rewrite List.filter_app, Hnone. simpl.
        by rewrite Hpair. }
      split; [intros _ _; by rewrite Hnone |].
      split; [done |]. split; [| done]. intros _. by exists c.
    + intros [= <- <-]. simpl.
      split; [| split; [| split; [done | split; [done |]]]].
      * apply createPair_failure in Hcreate; [| intros n w; apply Hquiet].
        simpl in Hcreate. rewrite Hquiet in Hcreate.
        unfold direct_chats. by rewrite Hcreate.
      * intros _ _. rewrite Hnone. intros Hau Hap Hfresh. exfalso.
        match type of Hcreate with
        | Chat.createPair _ _ ?n ?st = _ =>
            destruct (createPair_succeeds (user_id u) (ObjectId_of peerId) n st)
              as (c & s2 & Hok)
        end; try done.
        { simpl. by rewrite Hquiet. }
        discriminate (eq_trans (eq_sym Hok) Hcreate).
      * intros _. apply createPair_failure in Hcreate; [| intros n w; apply Hquiet].
        simpl in Hcreate. by rewrite Hquiet in Hcreate.
Qed.

Lemma getForUser_member_run chatId (u : User) s :
  isValidObjectId chatId = true →
  Chat.getForUser chatId (Some (IdObject (user_id u))) s =
    (Ok (Chat.populate (world s) <$>
           Chat.findOne (Chat.for_user (ObjectId_of chatId) (Some (user_id u))) (world s)),
     resumed s (world s)).
Proof. intros Hvalid. by apply (getForUser_run chatId (Some (user_id u))). Qed.

Lemma for_user_found chatId (u : User) w c :
  Chat.findOne (Chat.for_user (ObjectId_of chatId) (Some (user_id u))) w = Some c →
  c ∈ chats w ∧ chat_id c = ObjectId_of chatId ∧ user_id u ∈ participants c.
Proof.
  intros Hfind. apply find_some in Hfind as [Hin Hq]. apply list_elem_of_In in Hin.
  unfold Chat.for_user in Hq. apply andb_prop in Hq as [Hid Hmember].
  apply bool_decide_eq_true_1 in Hid. by apply bool_decide_eq_true_1 in Hmember.
Qed.

(** X28. The REST endpoints of a chat serve its participants only: when
    [getChat] or [getMessages] answers 200, or [sendMessage] answers 201,
    the request carried a user, and a chat is stored under the requested
    id that lists this user among its participants. *)
Theorem rest_requires_membership req s resp s' :
  (ChatController.getChat req s = (Ok resp, s') ∧ status resp = 200%nat) ∨
  (ChatController.getMessages req s = (Ok resp, s') ∧ status resp = 200%nat) ∨
  (ChatController.sendMessage req s = (Ok resp, s') ∧ status resp = 201%nat) →
  ∃ u c,
    req_user req = Some u ∧
    c ∈ chats (world s) ∧
    chat_id c = ObjectId_of (params_chatId req) ∧
    user_id u ∈ participants c.
Proof.
  unfold ChatController.getChat, ChatController.getMessages, ChatController.sendMessage,
    ChatController.isValidId, try_catch.
  destruct (req_user req) as [u |];
    [| by intros [[[= <- _] ?] | [[[= <- _] ?] | [[= <- _] ?]]]].
  destruct (isValidObjectId (params_chatId req)) eqn:Hvalid;
    [| by intros [[[= <- _] ?] | [[[= <- _] ?] | [[= <- _] ?]]]].
  cbn [negb]. cbv zeta.
  destruct (Chat.findOne (Chat.for_user (ObjectId_of (params_chatId req))
                            (Some (user_id u))) (world s)) as [c |] eqn:Hfind.
  { intros _. exists u, c. split; [done |]. by apply for_user_found. }
  intros [[Hrun ?] | [[Hrun ?] | [Hrun ?]]]; revert Hrun.
  - unfold mbind, M_bind. rewrite getForUser_member_run, Hfind by done.
    by intros [= <- _].
  - unfold mbind at 1, M_bind at 1. rewrite getForUser_member_run, Hfind by done.
    by intros [= <- _].
  - destruct (_ || _); [by intros [= <- _] |].
    unfold mbind at 1, M_bind at 1. rewrite getForUser_member_run, Hfind by done.
    by intros [= <- _].
Qed.

(** X30. The page size of [getMessages] is always between 1 and 200:
    when the endpoint answers 200, the limit it reports is the requested
    one, read with [parseInt] and replaced by 20 when absent, unreadable
    or zero, clamped to that range; the messages in the answer are at most
    that many, [count] is their number, and [hasMore] says whether the
    count reached the limit. *)
Theorem getMessages_page_size req s resp s' :
  ChatController.getMessages req s = (Ok resp, s') →
  status resp = 200%nat →
  let limit := Z.max 1 (Z.min 200 (ChatController.requested_limit (query_limit req))) in
  ∃ messages,
    body resp =
      MessagesJson messages (params_chatId req) limit (length messages)
        (Z.of_nat (length messages) =? limit) ∧
    1 ≤ limit ≤ 200 ∧
    Z.of_nat (length messages) ≤ limit ∧
    (query_limit req = None → limit = 20).
Proof.
  cbv zeta.
  unfold ChatController.getMessages, ChatController.isValidId, try_catch.
  destruct (req_user req) as [u |]; [| by intros [= <- _]].
  destruct (isValidObjectId (params_chatId req)) eqn:Hvalid; [| by intros [= <- _]].
  cbn [negb]. cbv zeta.
  unfold mbind at 1, M_bind at 1. rewrite getForUser_member_run by done.
  destruct (Chat.findOne _ _) as [c |]; [| by intros [= <- _]].
  cbn [fmap option_fmap option_map].
  set (limit := Z.max 1 (Z.min 200 (ChatController.requested_limit (query_limit req)))).
  assert (∀ before st,
    (let (r, s'0) :=
       (Message.getMessagesForChat (params_chatId req) (Some limit) before
        ≫= λ messages0,
             ChatController.json 200
               (MessagesJson messages0 (params_chatId req) limit (length messages0)
                  (Z.of_nat (length messages0) =? limit))) st in
     match r with
     | Ok a => (Ok a, s'0)
     | Throw e => ChatController.json 500 (ErrorJson e) s'0
     end) = (Ok resp, s') →
    status resp = 200%nat →
    ∃ messages0,
      body resp =
        MessagesJson messages0 (params_chatId req) limit (length messages0)
          (Z.of_nat (length messages0) =? limit) ∧
      1 ≤ limit ≤ 200 ∧ Z.of_nat (length messages0) ≤ limit ∧
      (query_limit req = None → limit = 20)) as Hfetch.
  { intros before st. unfold mbind, M_bind.
    destruct (Message.getMessagesForChat _ _ _ st) as [[page | e] s1] eqn:Hrun;
      [| by intros [= <- _]].
    intros [= <- _] _. simpl. exists page. split; [done |].
    apply getMessagesForChat_inv in Hrun as (_ & ms & -> & -> & _).
    split; [subst limit; lia |]. split.
    - rewrite length_fmap, length_take. simpl. subst limit. lia.
    - intros Hnone. subst limit. by rewrite Hnone. }
  destruct (Authenticator.falsy (query_before req)); [apply Hfetch |].
  destruct (Date_parse _); [apply Hfetch | by intros [= <- _]].
Qed.

End rest_controller.
(** * Further scenarios

    The properties above, at the users, chats and requests of the
    scenarios. *)

Section more_scenarios.
Import Hex Scenario Fixtures.

Lemma s_long_quiet : quiet s_long.
Proof. intros n w. reflexivity. Defined.

Lemma after_lookup_quiet : quiet (after_lookup s0).
Proof. intros n w. reflexivity. Defined.

Lemma empty_store_ok : store_ok (world s_empty).
Proof. split; constructor. Defined.

(** Ann gets [chatC], of which she is a participant, by her id given as
    a string. *)
Lemma getForUser_returns_member_chat_witness :
  isValidObjectId idC = true ∧
  pc_chat found1 ∈ chats (world s0) ∧
  chat_id (pc_chat found1) = ObjectId_of idC ∧
  found1 = Chat.populate (world s0) (pc_chat found1) ∧
  isValidObjectId (user_id U1) = true ∧
  ObjectId_of (user_id U1) ∈ participants (pc_chat found1).
Proof.
  apply (getForUser_returns_member_chat idC (Some (IdString (user_id U1))) s0 found1
           (after_lookup s0)).
  vm_compute. reflexivity.
Defined.

(** The direct chat of Ann and Bob is looked up. *)
Lemma findDirectPair_exact_witness :
  ∃ r,
    Chat.findDirectPair (Some (user_id U1)) (Some (user_id U2)) s0
      = (Ok r, resumed s0 (world s0)) ∧
    match r with
    | Some c =>
        c ∈ chats (world s0) ∧
        (participants c = [user_id U1; user_id U2] ∨
         participants c = [user_id U2; user_id U1])
    | None =>
        ∀ c, c ∈ chats (world s0) →
          participants c ≠ [user_id U1; user_id U2] ∧
          participants c ≠ [user_id U2; user_id U1]
    end.
Proof.
  apply (findDirectPair_exact (user_id U1) (user_id U2) s0).
  vm_compute. discriminate.
Defined.

(** The first direct chat of Ann and Bob is found again, from either
    side. *)
Lemma createPair_then_findDirectPair_witness :
  let s' := snd (Chat.createPair (Some (user_id U1)) (Some (user_id U2)) None s_empty) in
  ∃ c1 c2,
    fst (Chat.findDirectPair (Some (user_id U1)) (Some (user_id U2)) s') = Ok (Some c1) ∧
    fst (Chat.findDirectPair (Some (user_id U2)) (Some (user_id U1)) s') = Ok (Some c2) ∧
    (participants c1 = [user_id U1; user_id U2] ∨
     participants c1 = [user_id U2; user_id U1]) ∧
    (participants c2 = [user_id U1; user_id U2] ∨
     participants c2 = [user_id U2; user_id U1]) ∧
    (Chat.findOne (Chat.direct_pair (user_id U1) (user_id U2)) (world s_empty) = None →
     c1 = first_chat ∧ c2 = first_chat).
Proof.
  assert (Chat.createPair (Some (user_id U1)) (Some (user_id U2)) None s_empty =
            (Ok first_chat,
             snd (Chat.createPair (Some (user_id U1)) (Some (user_id U2)) None s_empty)))
    as Hrun by (vm_compute; reflexivity).
  assert (ObjectId_of (user_id U1) = user_id U1) as H1 by (vm_compute; reflexivity).
  assert (ObjectId_of (user_id U2) = user_id U2) as H2 by (vm_compute; reflexivity).
  exact (createPair_then_findDirectPair (user_id U1) (user_id U2) None s_empty
           first_chat _ s_empty_quiet H1 H2 Hrun).
Defined.

(** The first chat of Ann and Bob is a direct chat. *)
Lemma createPair_creates_direct_witness :
  ∃ x y,
    Some (user_id U1) = Some x ∧ Some (user_id U2) = Some y ∧ x ≠ y ∧
    participants first_chat = [ObjectId_of x; ObjectId_of y] ∧
    isDirect first_chat = true ∧ isGroup first_chat = false ∧
    lastMessage first_chat = None ∧ lastMessageAt first_chat = None.
Proof.
  assert (Chat.createPair (Some (user_id U1)) (Some (user_id U2)) None s_empty =
            (Ok first_chat,
             snd (Chat.createPair (Some (user_id U1)) (Some (user_id U2)) None s_empty)))
    as Hrun by (vm_compute; reflexivity).
  exact (createPair_creates_direct (Some (user_id U1)) (Some (user_id U2)) None s_empty
           first_chat _ Hrun).
Defined.

(** The store with the first chat of Ann and Bob meets its invariants. *)
Lemma store_ok_createPair_witness :
  store_ok (world (snd (Chat.createPair (Some (user_id U1)) (Some (user_id U2)) None
                          s_empty))).
Proof.
  assert (Chat.createPair (Some (user_id U1)) (Some (user_id U2)) None s_empty =
            (Ok first_chat,
             snd (Chat.createPair (Some (user_id U1)) (Some (user_id U2)) None s_empty)))
    as Hrun by (vm_compute; reflexivity).
  assert (ObjectId_of (user_id U1) = user_id U1) as H1 by (vm_compute; reflexivity).
  assert (ObjectId_of (user_id U2) = user_id U2) as H2 by (vm_compute; reflexivity).
  exact (store_ok_createPair (user_id U1) (user_id U2) None s_empty first_chat _
           s_empty_quiet H1 H2 empty_store_ok Hrun).
Defined.

(** The store after Bob has left [chatC] meets its invariants. *)
Lemma store_ok_leave_witness :
  store_ok (world (snd (Chat.leave idC (user_id U2) s0))).
Proof.
  assert (isValidObjectId idC = true) as Hvalid by (vm_compute; reflexivity).
  assert (Chat.leave idC (user_id U2) s0 =
            (Ok "left", snd (Chat.leave idC (user_id U2) s0)))
    as Hrun by (vm_compute; reflexivity).
  exact (store_ok_leave idC (user_id U2) s0 "left" _ s0_quiet Hvalid w0_store_ok Hrun).
Defined.

(** The store after Ann's message is written meets its invariants. *)
Lemma store_ok_createMessage_witness : store_ok (world (after_write s0)).
Proof.
  assert (Message.createMessage idC (user_id U1) "hello" (after_lookup s0) =
            (Ok message1, after_write s0)) as Hrun by (vm_compute; reflexivity).
  exact (store_ok_createMessage idC (user_id U1) "hello" (after_lookup s0) message1
           (after_write s0) after_lookup_quiet w0_store_ok Hrun).
Defined.

(** Bob leaves [chatC] twice. *)
Lemma leave_again_noop_witness :
  ∃ s'',
    Chat.leave idC (user_id U2) (snd (Chat.leave idC (user_id U2) s0)) = (Ok "noop", s'') ∧
    world s'' = world (snd (Chat.leave idC (user_id U2) s0)).
Proof.
  assert (isValidObjectId idC = true) as Hvalid by (vm_compute; reflexivity).
  assert (Chat.leave idC (user_id U2) s0 =
            (Ok "left", snd (Chat.leave idC (user_id U2) s0)))
    as Hrun by (vm_compute; reflexivity).
  exact (leave_again_noop idC (user_id U2) s0 "left" _ s0_quiet Hvalid w0_store_ok Hrun).
Defined.

(** A text of 2001 characters is refused and nothing is stored. *)
Lemma createMessage_failure_stores_nothing_witness :
  messages (world (snd (Message.createMessage idC (user_id U1) too_long s0)))
    = messages (world s0) ∧
  chats (world (snd (Message.createMessage idC (user_id U1) too_long s0)))
    = chats (world s0).
Proof.
  assert (Message.createMessage idC (user_id U1) too_long s0 =
            (Throw "Message validation failed: content is longer than the maximum allowed length (2000).",
             snd (Message.createMessage idC (user_id U1) too_long s0)))
    as Hrun by (vm_compute; reflexivity).
  exact (createMessage_failure_stores_nothing idC (user_id U1) too_long s0 _ _
           s0_quiet Hrun).
Defined.

(** Ann's message is stored trimmed. *)
Lemma createMessage_stores_trimmed_witness :
  msg_content message1 = trim " hello " ∧
  msg_content message1 ≠ "" ∧
  (String.length (msg_content message1) ≤ 2000)%nat ∧
  msg_sender message1 = ObjectId_of (user_id U1) ∧
  msg_chat message1 = ObjectId_of idC ∧
  msg_createdAt message1 = clock (world s0) ∧
  msg_updatedAt message1 = clock (world s0) ∧
  (quiet s0 →
   messages (world (snd (Message.createMessage idC (user_id U1) " hello " s0)))
     = (messages (world s0) ++ [message1])%list).
Proof.
  assert (Message.createMessage idC (user_id U1) " hello " s0 =
            (Ok message1, snd (Message.createMessage idC (user_id U1) " hello " s0)))
    as Hrun by (vm_compute; reflexivity).
  exact (createMessage_stores_trimmed idC (user_id U1) " hello " s0 message1 _ Hrun).
Defined.

(** Ann's message is created although the chat id names no stored
    chat. *)
Lemma createMessage_succeeds_witness :
  ∃ m s',
    Message.createMessage (user_id U3) (user_id U1) " hello " s0 = (Ok m, s') ∧
    msg_id m = ObjectId_fresh (generated (world s0)).
Proof.
  apply (createMessage_succeeds (user_id U3) (user_id U1) " hello " s0).
  - vm_compute. discriminate.
  - vm_compute. lia.
  - vm_compute. reflexivity.
  - vm_compute. reflexivity.
  - vm_compute. reflexivity.
Defined.

(** Ann's message is read back. *)
Lemma createMessage_then_getMessageById_witness :
  fst (Message.getMessageById (msg_id message1)
         (snd (Message.createMessage idC (user_id U1) " hello " s0)))
    = Ok (Some (Message.populate
                  (world (snd (Message.createMessage idC (user_id U1) " hello " s0)))
                  message1)).
Proof.
  assert (isValidObjectId (msg_id message1) = true) as Hvalid by (vm_compute; reflexivity).
  assert (ObjectId_of (msg_id message1) = msg_id message1) as Hnormal
    by (vm_compute; reflexivity).
  assert (Message.createMessage idC (user_id U1) " hello " s0 =
            (Ok message1, snd (Message.createMessage idC (user_id U1) " hello " s0)))
    as Hrun by (vm_compute; reflexivity).
  exact (createMessage_then_getMessageById idC (user_id U1) " hello " s0 message1 _
           s0_quiet Hvalid Hnormal Hrun).
Defined.

(** After 250 messages, Ann's new message heads the first page. *)
Lemma createMessage_then_newest_witness :
  ∃ rest,
    fst (Message.getMessagesForChat idC (Some 3) None
           (snd (Message.createMessage idC (user_id U1) " hello " s_long)))
      = Ok (Message.populate
              (world (snd (Message.createMessage idC (user_id U1) " hello " s_long)))
              message_long :: rest).
Proof.
  assert (∀ m0, m0 ∈ messages (world s_long) → msg_chat m0 = ObjectId_of idC →
                msg_createdAt m0 < clock (world s_long)) as Holder.
  { intros m0 Hm0 _.
    change (messages (world s_long)) with (nth_message <$> seq 0 250) in Hm0.
    apply list_elem_of_fmap in Hm0 as (i & -> & Hi).
    apply elem_of_seq in Hi. simpl. lia. }
  assert (Message.createMessage idC (user_id U1) " hello " s_long =
            (Ok message_long,
             snd (Message.createMessage idC (user_id U1) " hello " s_long)))
    as Hrun by (vm_compute; reflexivity).
  exact (createMessage_then_newest idC (user_id U1) " hello " s_long message_long _
           (Some 3) s_long_quiet Holder Hrun).
Defined.

(** The two pages of the long chat: three messages, then two older
    ones. *)
Lemma pages_do_not_overlap_witness :
  length first_page = 3%nat ∧ length second_page = 2%nat ∧
  ∀ p1 p2, p1 ∈ first_page → p2 ∈ second_page → pm_createdAt p2 < pm_createdAt p1.
Proof.
  split; [vm_compute; reflexivity |]. split; [vm_compute; reflexivity |].
  assert (Message.getMessagesForChat idC (Some 3) None s_long =
            (Ok first_page, snd (Message.getMessagesForChat idC (Some 3) None s_long)))
    as Hrun1 by (vm_compute; reflexivity).
  assert (last first_page = Some oldest_of_first_page) as Hlast
    by (vm_compute; reflexivity).
  assert (Message.getMessagesForChat idC (Some 2)
            (Some (pm_createdAt oldest_of_first_page))
            (snd (Message.getMessagesForChat idC (Some 3) None s_long)) =
            (Ok second_page,
             snd (Message.getMessagesForChat idC (Some 2)
                    (Some (pm_createdAt oldest_of_first_page))
                    (snd (Message.getMessagesForChat idC (Some 3) None s_long)))))
    as Hrun2 by (vm_compute; reflexivity).
  exact (pages_do_not_overlap idC (Some 3) (Some 2) s_long first_page _
           oldest_of_first_page second_page _ Hrun1 Hlast Hrun2).
Defined.

(** Ann joins the room of [chatC]. *)
Lemma joinRoom_granted_witness :
  ∃ s',
    SocketService.handleJoinRoom socket1 {| jr_chatId := idC |} s0 = (Ok tt, s') ∧
    socket_id socket1 ∈ SocketService.members (world s') ("chat:" +:+ idC) ∧
    emitted s0 s' =
      [{| target := ToSocket (socket_id socket1); receivers := {[ socket_id socket1 ]};
          event := joined_room idC (Chat.populate (world s0) chatC) |}].
Proof.
  apply (joinRoom_granted socket1 idC U1 chatC s0).
  - vm_compute. reflexivity.
  - reflexivity.
  - vm_compute. reflexivity.
Defined.

(** Cid may not send to [chatC]. *)
Lemma sendMessage_denied_witness :
  SocketService.handleSendMessage socket3 {| sm_chatId := idC; sm_content := "hi" |} s0 =
    (Ok tt,
     with_emission (resumed s0 (world s0))
       (error_to socket3 "Chat not found or access denied")).
Proof.
  apply (sendMessage_denied socket3 idC "hi" U3 s0).
  - vm_compute. reflexivity.
  - vm_compute. discriminate.
  - reflexivity.
  - intros c Hc _. apply list_elem_of_singleton in Hc. subst c.
    simpl. intros Hin.
    apply elem_of_cons in Hin as [Heq | Hin]; [discriminate Heq |].
    apply list_elem_of_singleton in Hin. discriminate Hin.
Defined.

(** Ann's send goes to the room and to Bob, and to nobody else. *)
Lemma sendMessage_fanout_exact_witness :
  ∃ s' updates,
    SocketService.handleSendMessage socket1 hello s0 = (Ok tt, s') ∧
    emitted s0 s' =
      to_room (world s') ("chat:" +:+ idC) (new_message idC populated1) :: updates ∧
    ∀ e, e ∈ updates →
      ∃ p,
        e = to_room (world s') ("user:" +:+ p) (chat_updated idC populated1) ∧
        p ∈ participants (pc_chat found1) ∧
        p ≠ SocketService.String_user_id socket1 ∧
        p ∉ presenceOf (world s') idC.
Proof.
  apply (sendMessage_fanout_exact socket1 idC " hello " s0
           found1 (after_lookup s0) message1 (after_write s0) populated1 (after_refetch s0)).
  - vm_compute. reflexivity.
  - vm_compute. discriminate.
  - vm_compute. reflexivity.
  - vm_compute. reflexivity.
  - vm_compute. reflexivity.
Defined.

(** Ann sends a text of 2001 characters. *)
Lemma sendMessage_write_failure_witness :
  ∃ s',
    SocketService.handleSendMessage socket1
      {| sm_chatId := idC; sm_content := too_long |} s0 = (Ok tt, s') ∧
    emitted s0 s' =
      [error_to socket1
         "Message validation failed: content is longer than the maximum allowed length (2000)."] ∧
    world s' =
      world (snd (Message.createMessage idC (SocketService.String_user_id socket1)
                    (trim too_long) (after_lookup s0))).
Proof.
  apply (sendMessage_write_failure socket1 idC too_long s0 found1 (after_lookup s0)).
  - vm_compute. reflexivity.
  - vm_compute. discriminate.
  - vm_compute. reflexivity.
  - vm_compute. reflexivity.
Defined.

(** Ann's [hello] is stored and broadcast. *)
Lemma sendMessage_delivers_witness :
  ∃ s',
    SocketService.handleSendMessage socket1 hello s0 = (Ok tt, s') ∧
    messages (world s') = (messages (world s0) ++ [message1])%list ∧
    rooms (world s') = rooms (world s0) ∧
    emitted s0 s' =
      to_room (world s') ("chat:" +:+ idC)
        (new_message idC (Message.populate (world s') message1)) ::
      notifications (world s') socket1 idC (Chat.populate (world s0) chatC)
        (Message.populate (world s') message1) (presenceOf (world s') idC).
Proof.
  assert (isValidObjectId idC = true) as Hvalid by (vm_compute; reflexivity).
  assert (isValidObjectId (user_id U1) = true) as Huser by (vm_compute; reflexivity).
  assert (trim " hello " ≠ "") as Hcontent by (vm_compute; discriminate).
  assert (String.length (trim " hello ") ≤ 2000)%nat as Hlength by (vm_compute; lia).
  assert (Chat.findOne (Chat.for_user (ObjectId_of idC) (Some (user_id U1))) (world s0)
            = Some chatC) as Hfind by (vm_compute; reflexivity).
  assert (existsb (Message.has_id (ObjectId_fresh (generated (world s0))))
            (messages (world s0)) = false) as Hfresh by (vm_compute; reflexivity).
  assert (isValidObjectId (ObjectId_fresh (generated (world s0))) = true) as Hid
    by (vm_compute; reflexivity).
  assert (ObjectId_of (ObjectId_fresh (generated (world s0)))
            = ObjectId_fresh (generated (world s0))) as Hnormal
    by (vm_compute; reflexivity).
  exact (sendMessage_delivers socket1 U1 idC " hello " chatC s0 s0_quiet Hvalid eq_refl
           Huser Hcontent Hlength Hfind Hfresh Hid Hnormal).
Defined.

(** Ann joins the room of [chatC] and leaves it. *)
Lemma join_then_leave_witness :
  let s1 := snd (SocketService.handleJoinRoom socket1 {| jr_chatId := idC |} s0) in
  let s2 := snd (SocketService.handleLeaveRoom socket1 {| jr_chatId := idC |} s1) in
  (∀ room,
     SocketService.members (world s2) room =
       if bool_decide (room = "chat:" +:+ idC)
       then SocketService.members (world s0) room ∖ {[ socket_id socket1 ]}
       else SocketService.members (world s0) room) ∧
  event <$> emitted s0 s2 =
    [joined_room idC (Chat.populate (world s0) chatC); left_room idC].
Proof.
  assert (isValidObjectId idC = true) as Hvalid by (vm_compute; reflexivity).
  assert (Chat.findOne (Chat.for_user (ObjectId_of idC) (Some (user_id U1))) (world s0)
            = Some chatC) as Hfind by (vm_compute; reflexivity).
  exact (join_then_leave socket1 idC U1 chatC s0 s0_quiet Hvalid eq_refl Hfind).
Defined.

(** Ann connects with a bearer token. *)
Lemma authenticate_sound_witness :
  ∃ token key decoded subject u,
    Authenticator.token_of bearer_of_ann = Some token ∧ token ≠ "" ∧
    Some "s3cret" = Some key ∧ key ≠ "" ∧
    jwt_verify token key = Ok decoded ∧
    Authenticator.subject_of decoded = Some subject ∧
    isValidObjectId subject = true ∧
    u ∈ users (world s0) ∧
    user_id u = ObjectId_of subject ∧
    socket1 = {| socket_id := "s1"; user := Some u |}.
Proof.
  apply (authenticate_sound (Some "s3cret") "s1" bearer_of_ann s0 socket1
           (snd (Authenticator.authenticate (Some "s3cret") "s1" bearer_of_ann s0))).
  vm_compute. reflexivity.
Defined.

(** Ann's bearer token in the header counts as the same token in
    [auth.token]. *)
Lemma authenticate_credential_carriers_witness :
  Authenticator.authenticate (Some "s3cret") "s1"
    {| auth_token := None; authorization := Some ("Bearer" +:+ " " +:+ "token-of-ann") |} s0 =
  Authenticator.authenticate (Some "s3cret") "s1"
    {| auth_token := Some "token-of-ann"; authorization := None |} s0.
Proof.
  apply (authenticate_credential_carriers (Some "s3cret") "s1" "token-of-ann" "Bearer"
           None s0).
  - reflexivity.
  - reflexivity.
Defined.

(** A connection without a configured secret is rejected before the
    store is consulted. *)
Lemma authenticate_consults_store_only_when_verified_witness :
  let run := Authenticator.authenticate None "s1" bearer_of_ann s0 in
  outbox (snd run) = outbox s0 ∧
  ((snd run = s0 ∧ ∃ e, fst run = Throw e) ∨
   (snd run = resumed s0 (world s0) ∧
    ∃ token key decoded,
      Authenticator.token_of bearer_of_ann = Some token ∧ None = Some key ∧
      jwt_verify token key = Ok decoded)).
Proof.
  apply (authenticate_consults_store_only_when_verified None "s1" bearer_of_ann s0).
  apply surjective_pairing.
Defined.

(** Bob connects with a token of the older form and is subscribed to his
    personal channel. *)
Lemma connect_subscribes_witness :
  ∃ u,
    socket2 = {| socket_id := "s2"; user := Some u |} ∧
    u ∈ users (world s0) ∧
    "s2" ∈ SocketService.members
             (world (snd (Authenticator.connect (Some "s3cret") "s2" legacy_of_bob s0)))
             ("user:" +:+ user_id u) ∧
    outbox (snd (Authenticator.connect (Some "s3cret") "s2" legacy_of_bob s0)) = outbox s0.
Proof.
  apply (connect_subscribes (Some "s3cret") "s2" legacy_of_bob s0 socket2).
  vm_compute. reflexivity.
Defined.

(** Ann asks for a chat with Bob when there is none: one is created. *)
Lemma createChat_keeps_pair_unique_witness :
  ∃ c,
    ChatJson named_chat = ChatJson c ∧
    participants c = [user_id U1; ObjectId_of (user_id U2)] ∧
    direct_chats (user_id U1) (ObjectId_of (user_id U2)) (world s_empty) = [] ∧
    chats (world (snd (ChatController.createChat ann_wants_bob s_empty))) =
      (chats (world s_empty) ++ [c])%list.
Proof.
  assert (ObjectId_of (user_id U1) = user_id U1) as H1 by (vm_compute; reflexivity).
  assert (ObjectId_of (ObjectId_of (user_id U2)) = ObjectId_of (user_id U2)) as H2
    by (vm_compute; reflexivity).
  assert (user_id U1 ≠ ObjectId_of (user_id U2)) as Hother by (vm_compute; discriminate).
  assert (length (direct_chats (user_id U1) (ObjectId_of (user_id U2)) (world s_empty))
            ≤ 1)%nat as Hone by (vm_compute; lia).
  assert (ChatController.createChat ann_wants_bob s_empty =
            (Ok {| status := 201; body := ChatJson named_chat |},
             snd (ChatController.createChat ann_wants_bob s_empty)))
    as Hrun by (vm_compute; reflexivity).
  destruct (createChat_keeps_pair_unique ann_wants_bob U1 (user_id U2) s_empty _ _
              s_empty_quiet eq_refl eq_refl H1 H2 Hother Hone Hrun)
    as (_ & _ & _ & Hcreated & _).
  apply Hcreated. reflexivity.
Defined.

(** Ann reads [chatC], of which she is a participant. *)
Lemma rest_requires_membership_witness :
  ∃ u c,
    req_user (request U1) = Some u ∧
    c ∈ chats (world s0) ∧
    chat_id c = ObjectId_of (params_chatId (request U1)) ∧
    user_id u ∈ participants c.
Proof.
  apply (rest_requires_membership (request U1) s0
           {| status := 200; body := PopulatedChatJson found1 |}
           (snd (ChatController.getChat (request U1) s0))).
  left. split; [vm_compute; reflexivity | reflexivity].
Defined.

(** Ann asks for 1000 of the 250 messages and gets 200. *)
Lemma getMessages_page_size_witness :
  ∃ messages,
    body long_answer =
      MessagesJson messages idC 200 (length messages)
        (Z.of_nat (length messages) =? 200) ∧
    1 ≤ 200 ≤ 200 ∧
    Z.of_nat (length messages) ≤ 200 ∧
    (Some "1000" = None → 200 = 20).
Proof.
  assert (ChatController.getMessages ann_reads_1000 s_long =
            (Ok long_answer, snd (ChatController.getMessages ann_reads_1000 s_long)))
    as Hrun by (vm_compute; reflexivity).
  assert (status long_answer = 200%nat) as Hstatus by (vm_compute; reflexivity).
  exact (getMessages_page_size ann_reads_1000 s_long long_answer _ Hrun Hstatus).
Defined.

End more_scenarios.
